(** * WildTree: the progression and cooldown engine of [wild_tree_bot_release.py]

    A shallow embedding of the bot's state transitions: the [users] table,
    the handlers for water, sun, daily bonus, status and profile, and the
    level-up loop, followed by the properties of the specification that
    they do or do not satisfy.

    Conventions of the embedding.
    - Python [int] is [Z].  SQLite's 64-bit INTEGER limit is not modelled:
      the counters grow by a few units per action.
    - [time.time()] and the REAL columns are rationals ([Q]); the rounding
      of double arithmetic is idealised away.  Each clock read is an
      explicit argument of the function that performs it.
    - The [users] table is a finite map from [user_id] (the primary key) to
      the seven remaining columns.
    - The handlers run in a state-and-exception monad over the [world]:
      the table, the function attribute [handler_sun.last_sun], and the
      chronological trace of the SQL statements committed and of the
      replies sent with [m.answer].
    - The text of a reply is a constructor of [reply] that carries the
      numbers interpolated by the f-string; the drawing [ascii_for(level)]
      of the status reply is determined by the level and left out.
    - A handler runs from its first statement to its last without another
      handler being interleaved at its [await]s. *)

From Stdlib Require Import ZArith QArith Qround Lia Lqa Ascii String.
From stdpp Require Import base option list gmap.

Local Open Scope Z_scope.

(** ** Outcomes of a Python computation *)

Inductive exn : Set :=
| TypeError.

(** [Done a]: normal return; [Raise e]: an exception propagates;
    [NoFuel]: the step budget of a loop of the model ran out (never an
    outcome of the program itself, see [level_up_loop_fuel]). *)
Inductive outcome (A : Type) : Type :=
| Done (a : A)
| Raise (e : exn)
| NoFuel.

Arguments Done {A} a.
Arguments Raise {A} e.
Arguments NoFuel {A}.

#[global] Instance outcome_ret : MRet outcome := @Done.
#[global] Instance outcome_bind : MBind outcome := λ A B f x,
  match x with
  | Done a => f a
  | Raise e => Raise e
  | NoFuel => NoFuel
  end.

(** ** Settings *)

Definition WATER_COOLDOWN : Q := 300 # 1.
Definition DAILY_COOLDOWN : Q := (24 * 3600) # 1.
Definition SUN_COOLDOWN : Q := 600 # 1.
Definition MAX_LEVEL : Z := 20.

(** ** Leveling *)

(** [least_from p fuel n]: the first [k >= n] with [p k], looking at no
    more than [fuel] candidates before settling on [n + fuel]. *)
Fixpoint least_from (p : Z → bool) (fuel : nat) (n : Z) : Z :=
  match fuel with
  | O => n
  | S k => if p n then n else least_from p k (n + 1)
  end.

(** [ceil(5 * x ** 1.6)] on a non-negative integer [x], in exact
    arithmetic: the least [n >= 0] with [5 * x^(8/5) <= n], that is with
    [5^5 * x^8 <= n^5].  The search needs no candidate beyond [5 * x^2]. *)
Definition ceil_5_pow_1_6 (x : Z) : Z :=
  least_from (λ n, 3125 * x ^ 8 <=? n ^ 5) (Z.to_nat (5 * x ^ 2)) 0.

(** [def exp_needed_for(level): return ceil(5 * (level ** 1.6))].
    A negative base with the exponent [1.6] makes [**] return a complex
    number, which [ceil] rejects with a [TypeError].  On doubles the value
    agrees with the exact one for every level from 0 to 31; the rounding
    of [**] first shows at level 32 (1281 for the exact 1280), and at
    levels too large for a double [**] raises [OverflowError]; the loop of
    [check_level_up] asks for no level beyond [MAX_LEVEL - 1]. *)
Definition exp_needed_for (level : Z) : outcome Z :=
  if level <? 0 then Raise TypeError else Done (ceil_5_pow_1_6 level).

(** ** The [users] table *)

(** A row of [users] without its key [user_id]; the same record holds the
    local variables a handler unpacks a fetched row into. *)
Record user : Type := mk_user {
  created : Q;
  last_water : Q;
  last_daily : Q;
  level : Z;
  exp : Z;
  sun : Z;
  water : Z
}.

(** One [column=value] keyword argument of [update_user]; only the columns
    the program ever assigns are listed.  Other keywords ([user_id], which
    would re-key the row, or a name that is no column, which would raise)
    are outside the model: no call of the program passes one. *)
Inductive assignment : Type :=
| set_last_water (v : Q)
| set_last_daily (v : Q)
| set_level (v : Z)
| set_exp (v : Z)
| set_sun (v : Z)
| set_water (v : Z).

Definition assign (r : user) (a : assignment) : user :=
  match a with
  | set_last_water v =>
      mk_user (created r) v (last_daily r) (level r) (exp r) (sun r) (water r)
  | set_last_daily v =>
      mk_user (created r) (last_water r) v (level r) (exp r) (sun r) (water r)
  | set_level v =>
      mk_user (created r) (last_water r) (last_daily r) v (exp r) (sun r) (water r)
  | set_exp v =>
      mk_user (created r) (last_water r) (last_daily r) (level r) v (sun r) (water r)
  | set_sun v =>
      mk_user (created r) (last_water r) (last_daily r) (level r) (exp r) v (water r)
  | set_water v =>
      mk_user (created r) (last_water r) (last_daily r) (level r) (exp r) (sun r) v
  end.

(** [UPDATE users SET k1=?, k2=?, ...] on one row. *)
Definition apply_kwargs (kwargs : list assignment) (r : user) : user :=
  fold_left assign kwargs r.

(** ** Replies and the trace *)

Record message : Type := mk_message {
  from_user_id : Z;
  first_name : string
}.

Inductive reply : Type :=
| Welcome
| StatusText (level exp needed sun water : Z)
| WaterWait (mins secs : Z)
| WaterDone
| SunWait (mins secs : Z)
| SunDone
| LevelUp (level : Z)
| RoadmapText
| StakingText
| DailyWait (hrs mins : Z)
| DailyDone (reward_sun reward_water reward_exp : Z)
| ProfileText (name : string) (level exp needed sun water : Z)
| FallbackText.

Inductive event : Type :=
| SqlInsert (uid : Z) (row : user)
| SqlUpdate (uid : Z) (kwargs : list assignment)
| Answer (chat : Z) (text : reply).

(** ** The world and its monad *)

Record world : Type := mk_world {
  users : gmap Z user;
  (** the attribute [handler_sun.last_sun]; [None] until first assigned *)
  last_sun : option Q;
  trace : list event
}.

Definition M (A : Type) : Type := world → outcome A * world.

#[global] Instance M_ret : MRet M := λ A a w, (Done a, w).
#[global] Instance M_bind : MBind M := λ A B f c w,
  match c w with
  | (Done a, w') => f a w'
  | (Raise e, w') => (Raise e, w')
  | (NoFuel, w') => (NoFuel, w')
  end.

Definition lift {A} (o : outcome A) : M A := λ w, (o, w).

Definition emit (e : event) : M unit := λ w,
  (Done tt, mk_world (users w) (last_sun w) (trace w ++ [e])).

(** [m.answer(text)] *)
Definition answer (m : message) (text : reply) : M unit :=
  emit (Answer (from_user_id m) text).

(** ** Database *)

(** [CREATE TABLE IF NOT EXISTS users]: the table is there from start-up
    on, so the statement changes nothing. *)
Definition init_db : M unit := mret tt.

(** [ensure_user(uid)]; [now] is the value [time.time()] has if the INSERT
    is reached. *)
Definition ensure_user (now : Q) (uid : Z) : M unit := λ w,
  match users w !! uid with
  | Some _ => (Done tt, w)
  | None =>
      let row := mk_user now 0 0 1 0 0 0 in
      (Done tt,
       mk_world (<[uid := row]> (users w)) (last_sun w)
                (trace w ++ [SqlInsert uid row]))
  end.

(** [get_user(uid)]: the fetched row, its first column being [user_id], or
    [None]. *)
Definition get_user (uid : Z) : M (option (Z * user)) := λ w,
  (Done (pair uid <$> users w !! uid), w).

(** [uid, created, ..., water = u]: unpacking [None] raises. *)
Definition unpack (u : option (Z * user)) : M (Z * user) :=
  match u with
  | Some row => mret row
  | None => lift (Raise TypeError)
  end.

(** [update_user(uid, **kwargs)] *)
Definition update_user (uid : Z) (kwargs : list assignment) : M unit :=
  match kwargs with
  | [] => mret tt
  | _ => λ w,
      (Done tt,
       mk_world (alter (apply_kwargs kwargs) uid (users w)) (last_sun w)
                (trace w ++ [SqlUpdate uid kwargs]))
  end.

(** ** Python arithmetic on timestamps *)

(** [x or 0] on a number: a zero is falsy and replaced by [0]. *)
Definition or_zero (x : Q) : Q := if Qeq_bool x 0 then 0%Q else x.

(** [int(x)] on a real number truncates toward zero. *)
Definition py_int (x : Q) : Z := Z.quot (Qnum x) (Zpos (Qden x)).

(** ** Level-up *)

(** The test of [while level < MAX_LEVEL and exp >= exp_needed_for(level)];
    [and] does not evaluate its right operand when the left one is false. *)
Definition loop_test (r : user) : outcome bool :=
  if level r <? MAX_LEVEL then
    n ← exp_needed_for (level r); mret (n <=? exp r)
  else mret false.

(** The four assignments of the loop body. *)
Definition loop_body (r : user) : outcome user :=
  n ← exp_needed_for (level r);
  mret (mk_user (created r) (last_water r) (last_daily r)
                (level r + 1) (exp r - n) (sun r + 1) (water r + 1)).

(** The [while] loop of [check_level_up] with a budget of [fuel] tests. *)
Fixpoint level_up_loop (fuel : nat) (m : message) (r : user) : M user :=
  match fuel with
  | O => lift NoFuel
  | S k =>
      b ← lift (loop_test r);
      if b : bool then
        r' ← lift (loop_body r);
        answer m (LevelUp (level r'));;
        level_up_loop k m r'
      else mret r
  end.

(** The budget [check_level_up] runs the loop with: one test per level
    still to climb, and the final one. *)
Definition level_up_loop_fuel (r : user) : nat :=
  S (Z.to_nat (MAX_LEVEL - level r)).

Definition check_level_up (m : message) (uid : Z) : M unit :=
  u ← get_user uid;
  '(uid, r) ← unpack u;
  r' ← level_up_loop (level_up_loop_fuel r) m r;
  update_user uid
    [set_level (level r'); set_exp (exp r'); set_sun (sun r');
     set_water (water r')].

(** ** Handlers *)

(** Every handler takes the message [m], the clock value [t_new] that
    [ensure_user] stamps a new row with, and where it reads the clock
    itself ([now = time.time()]) that value too. *)

Definition cmd_start (m : message) (t_new : Q) : M unit :=
  init_db;;
  ensure_user t_new (from_user_id m);;
  answer m Welcome.

Definition handler_status (m : message) (t_new : Q) : M unit :=
  ensure_user t_new (from_user_id m);;
  u ← get_user (from_user_id m);
  '(uid, r) ← unpack u;
  needed ← lift (exp_needed_for (level r));
  answer m (StatusText (level r) (exp r) needed (sun r) (water r)).

Definition handler_water (m : message) (t_new now : Q) : M unit :=
  ensure_user t_new (from_user_id m);;
  u ← get_user (from_user_id m);
  '(uid, r) ← unpack u;
  if Qlt_le_dec (now - or_zero (last_water r)) WATER_COOLDOWN then
    let remain := py_int (WATER_COOLDOWN - (now - last_water r)) in
    let mins := remain `div` 60 in
    let secs := remain `mod` 60 in
    answer m (WaterWait mins secs)
  else
    let water := water r + 1 in
    let exp := exp r + 2 in
    update_user uid [set_water water; set_exp exp; set_last_water now];;
    answer m WaterDone;;
    check_level_up m uid.

(** [getattr(handler_sun, "last_sun", 0)] *)
Definition getattr_last_sun (default : Q) : M Q := λ w,
  (Done (from_option id default (last_sun w)), w).

(** [handler_sun.last_sun = now] *)
Definition setattr_last_sun (now : Q) : M unit := λ w,
  (Done tt, mk_world (users w) (Some now) (trace w)).

Definition handler_sun (m : message) (t_new now : Q) : M unit :=
  ensure_user t_new (from_user_id m);;
  u ← get_user (from_user_id m);
  '(uid, r) ← unpack u;
  last_sun ← getattr_last_sun 0;
  if Qlt_le_dec (now - last_sun) SUN_COOLDOWN then
    let remain := py_int (SUN_COOLDOWN - (now - last_sun)) in
    let mins := remain `div` 60 in
    let secs := remain `mod` 60 in
    answer m (SunWait mins secs)
  else
    setattr_last_sun now;;
    let sun := sun r + 1 in
    let exp := exp r + 2 in
    update_user uid [set_sun sun; set_exp exp];;
    answer m SunDone;;
    check_level_up m uid.

Definition handler_roadmap (m : message) : M unit := answer m RoadmapText.

Definition handler_staking (m : message) : M unit := answer m StakingText.

Definition handler_daily (m : message) (t_new now : Q) : M unit :=
  ensure_user t_new (from_user_id m);;
  u ← get_user (from_user_id m);
  '(uid, r) ← unpack u;
  if Qlt_le_dec (now - or_zero (last_daily r)) DAILY_COOLDOWN then
    let remain := py_int ((last_daily r + DAILY_COOLDOWN) - now) in
    let hrs := remain `div` 3600 in
    let mins := (remain `mod` 3600) `div` 60 in
    answer m (DailyWait hrs mins)
  else
    let reward_sun := 1 + level r `div` 5 in
    let reward_water := 1 + level r `div` 6 in
    let reward_exp := 5 + level r in
    let sun := sun r + reward_sun in
    let water := water r + reward_water in
    let exp := exp r + reward_exp in
    update_user uid
      [set_sun sun; set_water water; set_exp exp; set_last_daily now];;
    answer m (DailyDone reward_sun reward_water reward_exp);;
    check_level_up m uid.

Definition handler_profile (m : message) (t_new : Q) : M unit :=
  ensure_user t_new (from_user_id m);;
  u ← get_user (from_user_id m);
  '(uid, r) ← unpack u;
  needed ← lift (exp_needed_for (level r));
  answer m (ProfileText (first_name m) (level r) (exp r) needed (sun r) (water r)).

Definition fallback (m : message) : M unit := answer m FallbackText.

(** The dispatcher runs the first handler whose filter accepts the text of
    the message; a [command] names the filter that matched. *)
Inductive command : Set :=
| Start | Status | Water | Sun | Roadmap | Staking | Daily | Profile
| Unmatched.

Definition dispatch (c : command) (m : message) (t_new now : Q) : M unit :=
  match c with
  | Start => cmd_start m t_new
  | Status => handler_status m t_new
  | Water => handler_water m t_new now
  | Sun => handler_sun m t_new now
  | Roadmap => handler_roadmap m
  | Staking => handler_staking m
  | Daily => handler_daily m t_new now
  | Profile => handler_profile m t_new
  | Unmatched => fallback m
  end.

(** The world before the first message: an empty table, no attribute on
    [handler_sun], nothing sent. *)
Definition initial_world : world := mk_world ∅ None [].

(** [run_all] feeds a list of dispatched messages to the bot, one after
    the other; it is used on sequences that raise nothing (an exception
    would end it, where the dispatcher logs it and goes on). *)
Fixpoint run_all (l : list (command * message * Q * Q)) : M unit :=
  match l with
  | [] => mret tt
  | (c, m, t_new, now) :: l' => dispatch c m t_new now;; run_all l'
  end.

Definition alice : message := mk_message 1 "alice".
Definition bob : message := mk_message 2 "bob".

(** ** Notions used to state the properties *)

(** The world after [ensure_user t_new uid]. *)
Definition ensured (t_new : Q) (uid : Z) (w : world) : world :=
  (ensure_user t_new uid w).2.

(** The world with further events appended to its trace. *)
Definition logged (es : list event) (w : world) : world :=
  mk_world (users w) (last_sun w) (trace w ++ es).

(** The level-up notifications sent to [m] for the levels [ls]. *)
Definition level_ups (m : message) (ls : list Z) : list event :=
  map (λ l, Answer (from_user_id m) (LevelUp l)) ls.

(** The keyword arguments of the final update of [check_level_up]. *)
Definition level_up_kwargs (r : user) : list assignment :=
  [set_level (level r); set_exp (exp r); set_sun (sun r); set_water (water r)].

(** Big-step runs of the [while] loop that end normally: [loop_run r ls r']
    when the loop entered with the locals [r] leaves with the locals [r']
    after announcing the levels [ls]. *)
Inductive loop_run : user → list Z → user → Prop :=
| loop_run_exit r :
    loop_test r = Done false → loop_run r [] r
| loop_run_iter r r1 ls r' :
    loop_test r = Done true → loop_body r = Done r1 →
    loop_run r1 ls r' → loop_run r (level r1 :: ls) r'.

(** The SQL statements of a trace. *)
Definition is_update (e : event) : bool :=
  match e with SqlUpdate _ _ => true | _ => false end.

Definition updates (es : list event) : list event := filter is_update es.

(** The table after replaying the SQL statements of a trace on it. *)
Definition replay_event (db : gmap Z user) (e : event) : gmap Z user :=
  match e with
  | SqlInsert uid row => <[uid := row]> db
  | SqlUpdate uid kwargs => alter (apply_kwargs kwargs) uid db
  | Answer _ _ => db
  end.

Definition replay (es : list event) (db : gmap Z user) : gmap Z user :=
  fold_left replay_event es db.

(** Following the words of the specification: [n] is the ceiling of
    [5 * x^1.6], that is [n - 1 < 5 * x^(8/5) <= n], stated on integers by
    raising the three members to the fifth power. *)
Definition is_ceil_5_pow_1_6 (x n : Z) : Prop :=
  0 ≤ n ∧ (n - 1) ^ 5 < 3125 * x ^ 8 ∧ 3125 * x ^ 8 ≤ n ^ 5.

(** A row whose level is beyond [MAX_LEVEL], alone in the table. *)
Definition overgrown : user := mk_user 0 0 0 21 0 0 0.
Definition overgrown_world : world := mk_world {[1 := overgrown]} None [].

(** The three cooldown-gated commands with, for each, its duration, the
    timestamp its test reads, its wait message for a remaining time in
    whole seconds, and what it writes and answers once the test passes. *)
Definition gated (c : command) : Prop := c = Water ∨ c = Sun ∨ c = Daily.

Definition cooldown_of (c : command) : Q :=
  match c with
  | Water => WATER_COOLDOWN
  | Sun => SUN_COOLDOWN
  | Daily => DAILY_COOLDOWN
  | _ => 0
  end.

Definition last_performed (c : command) (w : world) (r : user) : Q :=
  match c with
  | Water => last_water r
  | Sun => default 0%Q (last_sun w)
  | Daily => last_daily r
  | _ => 0
  end.

Definition wait_reply (c : command) (remain : Z) : reply :=
  match c with
  | Water => WaterWait (remain `div` 60) (remain `mod` 60)
  | Sun => SunWait (remain `div` 60) (remain `mod` 60)
  | Daily => DailyWait (remain `div` 3600) ((remain `mod` 3600) `div` 60)
  | _ => FallbackText
  end.

Definition reward_kwargs (c : command) (r : user) (now : Q) : list assignment :=
  match c with
  | Water => [set_water (water r + 1); set_exp (exp r + 2); set_last_water now]
  | Sun => [set_sun (sun r + 1); set_exp (exp r + 2)]
  | Daily =>
      [set_sun (sun r + (1 + level r `div` 5));
       set_water (water r + (1 + level r `div` 6));
       set_exp (exp r + (5 + level r)); set_last_daily now]
  | _ => []
  end.

Definition done_reply (c : command) (r : user) : reply :=
  match c with
  | Water => WaterDone
  | Sun => SunDone
  | Daily => DailyDone (1 + level r `div` 5) (1 + level r `div` 6) (5 + level r)
  | _ => FallbackText
  end.

(** The attribute [handler_sun.last_sun] after a command that passed its
    test at [now]. *)
Definition last_sun_after (c : command) (w : world) (now : Q) : option Q :=
  match c with
  | Sun => Some now
  | _ => last_sun w
  end.

(** A command is blocked when all it does, once the row exists, is to
    send one reply: no statement is committed, no attribute is set. *)
Definition blocked (c : command) (m : message) (t_new now : Q) (w : world) : Prop :=
  ∃ text,
    dispatch c m t_new now w =
    (Done tt,
     logged [Answer (from_user_id m) text] (ensured t_new (from_user_id m) w)).

(** Alice after one water and one sun at time 1000: level 1 with 4
    experience, one short of the requirement of level 1. *)
Definition alice_at_4 : world :=
  (run_all [(Water, alice, 1000%Q, 1000%Q); (Sun, alice, 1000%Q, 1000%Q)]
           initial_world).2.

(** The world after Alice, first to write, gave sun at time 1000. *)
Definition after_alice_sun : world :=
  (handler_sun alice 1000 1000 initial_world).2.

(** [keeps_others uid c]: running [c] leaves the row of every user other
    than [uid] as it finds it. *)
Definition keeps_others {A} (uid : Z) (c : M A) : Prop :=
  ∀ (w : world) (B : Z), B ≠ uid → users (c w).2 !! B = users w !! B.

(** What a handler run for [uid] can see of the world: the row of [uid]
    and the attribute of [handler_sun]. *)
Definition same_view (uid : Z) (w1 w2 : world) : Prop :=
  users w1 !! uid = users w2 !! uid ∧ last_sun w1 = last_sun w2.

(** [local_to uid c]: from two worlds with the same view, [c] has the same
    outcome, appends the same events, and leaves the same view. *)
Definition local_to {A} (uid : Z) (c : M A) : Prop :=
  ∀ w1 w2 : world,
    same_view uid w1 w2 →
    (c w1).1 = (c w2).1 ∧
    same_view uid (c w1).2 (c w2).2 ∧
    ∃ es, trace (c w1).2 = trace w1 ++ es ∧ trace (c w2).2 = trace w2 ++ es.

(** The invariants of the data model on a stored row, and on the table. *)
Definition well_formed_row (r : user) : Prop :=
  1 ≤ level r ≤ MAX_LEVEL ∧ 0 ≤ exp r ∧ 0 ≤ sun r ∧ 0 ≤ water r ∧
  (level r < MAX_LEVEL → ∃ n, exp_needed_for (level r) = Done n ∧ exp r < n).

Definition well_formed (w : world) : Prop :=
  ∀ uid r, users w !! uid = Some r → well_formed_row r.

(** [within_budget c]: [c] never stops for lack of budget. *)
Definition within_budget {A} (c : M A) : Prop :=
  ∀ w : world, (c w).1 ≠ NoFuel.

(** [preserves R c]: the world [c] leaves is related by [R] to the world it
    was run in, whatever the outcome. *)
Definition preserves {A} (R : world → world → Prop) (c : M A) : Prop :=
  ∀ w : world, R w (c w).2.

(** Every stored row stays stored, with the [created] it had. *)
Definition rows_kept (w w' : world) : Prop :=
  ∀ (B : Z) (r : user),
    users w !! B = Some r →
    ∃ r', users w' !! B = Some r' ∧ created r' = created r.



(** The experience the loop takes away for climbing [k] levels from level
    [l]: the requirements of the levels [l], ..., [l + k - 1]. *)
Definition spent (l : Z) (k : nat) : Z :=
  foldr Z.add 0 (map (λ i, ceil_5_pow_1_6 (l + Z.of_nat i)) (seq 0 k)).

(** ** ASCII art, keyboard and routing *)

(** The line feed and the backslash, which the string notation of Rocq has
    no escape for. *)
Definition LF : string := String "010"%char EmptyString.
Definition BS : string := String "092"%char EmptyString.

(** Python strings are kept as their UTF-8 bytes. *)
Definition ASCII_TREE : gmap Z string :=
  list_to_map [(1, "🌱"); (2, "🌿"); (3, "🌳"); (4, "🌲"); (5, "🌴")]%string.

(** [d.get(k, fallback)] *)
Definition dict_get (d : gmap Z string) (k : Z) (fallback : string) : string :=
  default fallback (d !! k).

(** [ascii_for(level)].  The literal of the third row, [  //] followed by
    six backslashes and [n] in the source, is two slashes, three
    backslashes and the letter [n]: no line feed. *)
Definition ascii_for (level : Z) : string :=
  if level <? 3 then
    ("  " ++ dict_get ASCII_TREE level "🌱" ++ "  ")%string
  else
    ("   " ++ dict_get ASCII_TREE (Z.min level 5) "🌳" ++ LF ++
     "   /" ++ BS ++ LF ++
     "  //" ++ BS ++ BS ++ BS ++ "n" ++
     " ||  ||" ++ LF)%string.

(** The number of line feeds of a string. *)
Fixpoint line_feeds (s : string) : nat :=
  match s with
  | EmptyString => 0
  | String c s' => (if Ascii.eqb c "010"%char then 1 else 0) + line_feeds s'
  end.

(** [main_keyboard()]: the argument lists of the successive [kb.add]
    calls, each of which makes one row of buttons. *)
Definition main_keyboard : list (list string) :=
  [["🌱 Посадить / Статус"];
   ["💧 Полить"; "🌞 Дать солнце"];
   ["📜 Roadmap"];
   ["💰 Staking (скоро)"];
   ["🎁 Ежедневный бонус"];
   ["👤 Профиль"]]%string.

(** [m.text == s]; a message without text has [m.text = None]. *)
Definition text_is (text : option string) (s : string) : bool :=
  match text with
  | Some t => String.eqb t s
  | None => false
  end.

(** The handler the dispatcher runs for a text message: the first one, in
    the order of the [@dp.message_handler] decorators, whose filter accepts
    it.  [is_start] stands for the library's filter [commands=["start"]].
    The handlers are registered for text messages; a message without text
    runs none of them, and [route] is not meant for it (it answers
    [Unmatched] there, of which nothing below makes use). *)
Definition route (is_start : option string → bool) (text : option string) : command :=
  if is_start text then Start
  else if text_is text "🌱 Посадить / Статус" then Status
  else if text_is text "💧 Полить" then Water
  else if text_is text "🌞 Дать солнце" then Sun
  else if text_is text "📜 Roadmap" then Roadmap
  else if text_is text "💰 Staking (скоро)" then Staking
  else if text_is text "🎁 Ежедневный бонус" then Daily
  else if text_is text "👤 Профиль" then Profile
  else Unmatched.

(** A sample command filter, accepting the texts that begin with
    [/start]; it is not the library's filter and only serves to apply the
    property of the keyboard to a concrete filter. *)
Definition starts_with_slash_start (text : option string) : bool :=
  match text with
  | Some t => String.prefix "/start" t
  | None => false
  end.

(** * Properties *)

Example exp_needed_for_table :
  map exp_needed_for [0; 1; 2; 3; 4; 5; 10; 19; 20; 21] =
  map Done [0; 5; 16; 29; 46; 66; 200; 556; 604; 653].
Proof. vm_compute. reflexivity. Qed.

(** ** The experience requirement *)

Lemma least_from_spec (p : Z → bool) (fuel : nat) (n : Z) :
  n ≤ least_from p fuel n ≤ n + Z.of_nat fuel ∧
  (∀ k, n ≤ k < least_from p fuel n → p k = false) ∧
  (least_from p fuel n < n + Z.of_nat fuel → p (least_from p fuel n) = true).
Proof.
  revert n. induction fuel as [|fuel IH]; intros n.
  - cbn [least_from]. repeat split; lia.
  - cbn [least_from]. destruct (p n) eqn:Hp.
    + repeat split; try lia. intros _. exact Hp.
    + destruct (IH (n + 1)) as (Hb & Hlow & Hhit).
      repeat split; try lia.
      * intros k Hk. destruct (decide (k = n)) as [->|Hne]; [exact Hp|].
        apply Hlow. lia.
      * intros Hlt. apply Hhit. lia.
Qed.

Lemma pow5_bound (x : Z) : 0 ≤ x → 3125 * x ^ 8 ≤ (5 * x ^ 2) ^ 5.
Proof.
  intros Hx.
  replace ((5 * x ^ 2) ^ 5) with (3125 * (x ^ 8 * x ^ 2)) by ring.
  assert (0 ≤ x ^ 8) by (apply Z.pow_nonneg; lia).
  assert (x = 0 ∨ 1 ≤ x ^ 2) as [->|H2] by nia.
  - reflexivity.
  - nia.
Qed.

(** [ceil_5_pow_1_6 x] is the least non-negative integer whose fifth power
    reaches [5^5 * x^8]. *)
Lemma ceil_5_pow_1_6_spec (x : Z) :
  0 ≤ x →
  0 ≤ ceil_5_pow_1_6 x ∧
  3125 * x ^ 8 ≤ ceil_5_pow_1_6 x ^ 5 ∧
  ∀ k, 0 ≤ k < ceil_5_pow_1_6 x → k ^ 5 < 3125 * x ^ 8.
Proof.
  intros Hx. unfold ceil_5_pow_1_6.
  set (p := λ n : Z, 3125 * x ^ 8 <=? n ^ 5).
  set (fuel := Z.to_nat (5 * x ^ 2)).
  destruct (least_from_spec p fuel 0) as (Hb & Hlow & Hhit).
  assert (Hfuel : Z.of_nat fuel = 5 * x ^ 2).
  { unfold fuel. rewrite Z2Nat.id; [reflexivity|]. nia. }
  split; [lia|]. split.
  - destruct (decide (least_from p fuel 0 = 5 * x ^ 2)) as [->|Hne].
    + by apply pow5_bound.
    + apply Z.leb_le. apply Hhit. lia.
  - intros k Hk. specialize (Hlow k Hk). unfold p in Hlow.
    apply Z.leb_gt in Hlow. exact Hlow.
Qed.

Lemma ceil_5_pow_1_6_pos (x : Z) : 1 ≤ x → 0 < ceil_5_pow_1_6 x.
Proof.
  intros Hx. destruct (ceil_5_pow_1_6_spec x) as (H0 & Hge & _); [lia|].
  assert (0 < x ^ 8) by (apply Z.pow_pos_nonneg; lia).
  destruct (decide (ceil_5_pow_1_6 x = 0)) as [Heq|]; [|lia].
  rewrite Heq in Hge. change (0 ^ 5) with 0 in Hge. lia.
Qed.

Lemma exp_needed_for_nonneg (l : Z) :
  0 ≤ l → exp_needed_for l = Done (ceil_5_pow_1_6 l).
Proof.
  intros H. unfold exp_needed_for.
  destruct (l <? 0) eqn:E; [apply Z.ltb_lt in E; lia|reflexivity].
Qed.

Lemma exp_needed_for_done (l n : Z) : exp_needed_for l = Done n → 0 ≤ l.
Proof.
  unfold exp_needed_for. destruct (l <? 0) eqn:E; [discriminate|].
  intros _. by apply Z.ltb_ge in E.
Qed.

Lemma exp_needed_for_is_ceil (l : Z) :
  0 ≤ l →
  ∃ n, exp_needed_for l = Done n ∧ is_ceil_5_pow_1_6 l n.
Proof.
  intros Hl. exists (ceil_5_pow_1_6 l). split; [by apply exp_needed_for_nonneg|].
  destruct (ceil_5_pow_1_6_spec l Hl) as (H0 & Hge & Hlow).
  repeat split; [exact H0| |exact Hge].
  destruct (decide (ceil_5_pow_1_6 l = 0)) as [Heq|Hne].
  - rewrite Heq. change ((0 - 1) ^ 5) with (-1).
    assert (0 ≤ l ^ 8) by (apply Z.pow_nonneg; lia). lia.
  - apply Hlow. lia.
Qed.

Lemma exp_needed_for_pos (l : Z) :
  1 ≤ l → ∃ n, exp_needed_for l = Done n ∧ 0 < n.
Proof.
  intros Hl. exists (ceil_5_pow_1_6 l).
  split; [apply exp_needed_for_nonneg; lia|by apply ceil_5_pow_1_6_pos].
Qed.

Lemma ceil_5_pow_1_6_increasing_upto_max :
  forallb (λ l, ceil_5_pow_1_6 l <? ceil_5_pow_1_6 (l + 1))
          (map Z.of_nat (seq 1 20)) = true.
Proof. vm_compute. reflexivity. Qed.

(** C6. [exp_needed_for(L)] is the ceiling of [5 * L^1.6], and it grows
    strictly from each level [L] in [1, MAX_LEVEL] to the next. *)
Theorem exp_needed_for_ceil_strictly_increasing (L : Z) :
  1 ≤ L ≤ MAX_LEVEL →
  ∃ n n',
    exp_needed_for L = Done n ∧ is_ceil_5_pow_1_6 L n ∧
    exp_needed_for (L + 1) = Done n' ∧ is_ceil_5_pow_1_6 (L + 1) n' ∧
    n < n'.
Proof.
  unfold MAX_LEVEL. intros HL.
  destruct (exp_needed_for_is_ceil L) as (n & Hn & Hc); [lia|].
  destruct (exp_needed_for_is_ceil (L + 1)) as (n' & Hn' & Hc'); [lia|].
  exists n, n'. split_and!; try done.
  rewrite exp_needed_for_nonneg in Hn, Hn' by lia.
  injection Hn as <-. injection Hn' as <-.
  pose proof ceil_5_pow_1_6_increasing_upto_max as Hall.
  rewrite forallb_forall in Hall.
  apply Z.ltb_lt. apply (Hall L).
  apply in_map_iff. exists (Z.to_nat L). split; [lia|].
  apply in_seq. lia.
Qed.

Lemma exp_needed_for_ceil_strictly_increasing_witness :
  1 ≤ 10 ≤ MAX_LEVEL ∧
  ∃ n n',
    exp_needed_for 10 = Done n ∧ is_ceil_5_pow_1_6 10 n ∧
    exp_needed_for (10 + 1) = Done n' ∧ is_ceil_5_pow_1_6 (10 + 1) n' ∧
    n < n'.
Proof.
  split; [unfold MAX_LEVEL; lia|].
  apply (exp_needed_for_ceil_strictly_increasing 10). unfold MAX_LEVEL. lia.
Defined.

(** ** Running monadic code *)

Lemma bind_run {A B} (c : M A) (f : A → M B) (w : world) :
  (c ≫= f) w =
  match c w with
  | (Done a, w') => f a w'
  | (Raise e, w') => (Raise e, w')
  | (NoFuel, w') => (NoFuel, w')
  end.
Proof. reflexivity. Qed.

Lemma logged_nil (w : world) : logged [] w = w.
Proof. destruct w as [db a tr]. unfold logged. cbn. by rewrite app_nil_r. Qed.

Lemma logged_logged (es es' : list event) (w : world) :
  logged es' (logged es w) = logged (es ++ es') w.
Proof. unfold logged. cbn. by rewrite app_assoc. Qed.

Lemma answer_run (m : message) (text : reply) (w : world) :
  answer m text w = (Done tt, logged [Answer (from_user_id m) text] w).
Proof. reflexivity. Qed.

(** Fetching and unpacking the row of [uid] yields the key and the stored
    columns, or raises when there is no row. *)
Lemma get_unpack_run {A} (uid : Z) (k : Z → user → M A) (w : world) :
  (u ← get_user uid; '(uid', r) ← unpack u; k uid' r) w =
  match users w !! uid with
  | Some r => k uid r w
  | None => (Raise TypeError, w)
  end.
Proof.
  rewrite bind_run. unfold get_user. destruct (users w !! uid); reflexivity.
Qed.

Lemma ensure_user_run (t_new : Q) (uid : Z) (w : world) :
  ensure_user t_new uid w = (Done tt, ensured t_new uid w).
Proof. unfold ensured, ensure_user. destruct (users w !! uid); reflexivity. Qed.

Lemma ensured_lookup (t_new : Q) (uid : Z) (w : world) :
  users (ensured t_new uid w) !! uid =
  Some (default (mk_user t_new 0 0 1 0 0 0) (users w !! uid)).
Proof.
  unfold ensured, ensure_user. destruct (users w !! uid) eqn:E; cbn.
  - exact E.
  - apply lookup_insert_eq.
Qed.

Lemma ensured_present (t_new : Q) (uid : Z) (w : world) (r : user) :
  users w !! uid = Some r → ensured t_new uid w = w.
Proof. intros E. unfold ensured, ensure_user. by rewrite E. Qed.

(** ** The level-up loop *)

Lemma loop_test_true (r : user) :
  loop_test r = Done true →
  level r < MAX_LEVEL ∧ ∃ n, exp_needed_for (level r) = Done n ∧ n ≤ exp r.
Proof.
  unfold loop_test. destruct (level r <? MAX_LEVEL) eqn:E; [|discriminate].
  apply Z.ltb_lt in E. destruct (exp_needed_for (level r)) as [n| |]; try discriminate.
  cbn. intros [= H]. apply Z.leb_le in H. eauto.
Qed.

Lemma loop_test_false (r : user) :
  loop_test r = Done false →
  MAX_LEVEL ≤ level r ∨ ∃ n, exp_needed_for (level r) = Done n ∧ exp r < n.
Proof.
  unfold loop_test. destruct (level r <? MAX_LEVEL) eqn:E.
  - destruct (exp_needed_for (level r)) as [n| |]; try discriminate.
    cbn. intros [= H]. apply Z.leb_gt in H. eauto.
  - apply Z.ltb_ge in E. auto.
Qed.

Lemma loop_test_done (r : user) :
  0 ≤ level r ∨ MAX_LEVEL ≤ level r → ∃ b, loop_test r = Done b.
Proof.
  intros H. unfold loop_test. destruct (level r <? MAX_LEVEL) eqn:E; [|eauto].
  apply Z.ltb_lt in E. rewrite exp_needed_for_nonneg by lia. cbn. eauto.
Qed.

Lemma loop_body_done (r : user) (n : Z) :
  exp_needed_for (level r) = Done n →
  loop_body r =
  Done (mk_user (created r) (last_water r) (last_daily r)
                (level r + 1) (exp r - n) (sun r + 1) (water r + 1)).
Proof. intros E. unfold loop_body. by rewrite E. Qed.

(** A run of the relation is what the loop of the model computes, whatever
    budget beyond the number of iterations it is given. *)
Lemma level_up_loop_run (r : user) (ls : list Z) (r' : user) :
  loop_run r ls r' →
  ∀ (fuel : nat) (m : message) (w : world),
    (length ls < fuel)%nat →
    level_up_loop fuel m r w = (Done r', logged (level_ups m ls) w).
Proof.
  induction 1 as [r Ht|r r1 ls r' Ht Hb _ IH]; intros fuel m w Hfuel.
  - destruct fuel as [|k]; [cbn in Hfuel; lia|].
    cbn [level_up_loop]. rewrite bind_run. unfold lift. rewrite Ht.
    cbn. by rewrite logged_nil.
  - destruct fuel as [|k]; [cbn in Hfuel; lia|].
    cbn [level_up_loop]. rewrite bind_run. unfold lift at 1. rewrite Ht.
    rewrite bind_run. unfold lift at 1. rewrite Hb.
    rewrite bind_run, answer_run.
    rewrite IH by (cbn in Hfuel; lia).
    by rewrite logged_logged.
Qed.

Lemma loop_run_deterministic (r : user) (ls : list Z) (r' : user) :
  loop_run r ls r' → ∀ ls2 r2, loop_run r ls2 r2 → ls2 = ls ∧ r2 = r'.
Proof.
  induction 1 as [r Ht|r r1 ls r' Ht Hb _ IH]; intros ls2 r2 H2.
  - inversion H2; subst; [done|congruence].
  - inversion H2 as [|? r1' ls' ? Ht' Hb' Hrun]; subst; [congruence|].
    assert (r1' = r1) as -> by congruence.
    destruct (IH _ _ Hrun) as [-> ->]. done.
Qed.

(** What a run leaves alone and what it adds. *)
Lemma loop_run_effect (r : user) (ls : list Z) (r' : user) :
  loop_run r ls r' →
  created r' = created r ∧ last_water r' = last_water r ∧
  last_daily r' = last_daily r ∧
  level r' = level r + Z.of_nat (length ls) ∧
  sun r' = sun r + Z.of_nat (length ls) ∧
  water r' = water r + Z.of_nat (length ls) ∧
  ls = map (λ i, level r + 1 + Z.of_nat i) (seq 0 (length ls)) ∧
  loop_test r' = Done false.
Proof.
  induction 1 as [r Ht|r r1 ls r' Ht Hb _ IH].
  - cbn. split_and!; try done; lia.
  - destruct (loop_test_true r Ht) as (_ & n & Hn & _).
    rewrite (loop_body_done r n Hn) in Hb. injection Hb as <-.
    cbn in IH. destruct IH as (-> & -> & -> & -> & -> & -> & Hls & Hend).
    cbn [length]. split_and!; try done; try lia.
    cbn [seq map level]. f_equal; [lia|].
    rewrite Hls at 1. rewrite <- seq_shift, map_map.
    apply map_ext. intros i. lia.
Qed.

Lemma loop_run_bounds (r : user) (ls : list Z) (r' : user) :
  loop_run r ls r' →
  (level r ≤ MAX_LEVEL → level r' ≤ MAX_LEVEL) ∧
  (0 ≤ exp r → 0 ≤ exp r').
Proof.
  induction 1 as [r Ht|r r1 ls r' Ht Hb _ IH]; [done|].
  destruct (loop_test_true r Ht) as (Hlt & n & Hn & Hle).
  rewrite (loop_body_done r n Hn) in Hb. injection Hb as <-.
  cbn in IH. destruct IH as [IH1 IH2]. split; intros; [apply IH1|apply IH2]; lia.
Qed.

(** The loop ends normally from every non-negative level, after at most
    [MAX_LEVEL - level] iterations. *)
Lemma loop_run_total (r : user) :
  0 ≤ level r ∨ MAX_LEVEL ≤ level r →
  ∃ ls r', loop_run r ls r' ∧ (length ls ≤ Z.to_nat (MAX_LEVEL - level r))%nat.
Proof.
  remember (Z.to_nat (MAX_LEVEL - level r)) as k eqn:Hk.
  revert r Hk. induction k as [|k IH]; intros r Hk Hl.
  - exists [], r. split; [|done]. apply loop_run_exit.
    unfold loop_test. destruct (level r <? MAX_LEVEL) eqn:E; [|done].
    apply Z.ltb_lt in E. lia.
  - destruct (loop_test_done r Hl) as [[|] Ht].
    + destruct (loop_test_true r Ht) as (Hlt & n & Hn & Hle).
      pose proof (loop_body_done r n Hn) as Hb.
      set (r1 := mk_user _ _ _ _ _ _ _) in Hb.
      destruct (IH r1) as (ls & r' & Hrun & Hlen).
      { subst r1. cbn. lia. }
      { subst r1. cbn. pose proof (exp_needed_for_done (level r) n Hn). lia. }
      exists (level r1 :: ls), r'. split; [by eapply loop_run_iter|cbn; lia].
    + exists [], r. split; [by apply loop_run_exit|cbn; lia].
Qed.

Lemma loop_run_length (r : user) (ls : list Z) (r' : user) :
  loop_run r ls r' → (length ls ≤ Z.to_nat (MAX_LEVEL - level r))%nat.
Proof.
  induction 1 as [r Ht|r r1 ls r' Ht Hb _ IH]; [cbn; lia|].
  destruct (loop_test_true r Ht) as (Hlt & n & Hn & _).
  rewrite (loop_body_done r n Hn) in Hb. injection Hb as <-.
  cbn in IH. cbn [length]. lia.
Qed.

Lemma alter_present (f : user → user) (uid : Z) (db : gmap Z user) (r : user) :
  db !! uid = Some r → alter f uid db = <[uid := f r]> db.
Proof.
  intros E. apply map_eq. intros i. rewrite lookup_alter, lookup_insert.
  destruct (decide (uid = i)) as [->|]; [by rewrite E|done].
Qed.

Lemma level_up_kwargs_apply (r r' : user) :
  created r' = created r → last_water r' = last_water r →
  last_daily r' = last_daily r →
  apply_kwargs (level_up_kwargs r') r = r'.
Proof. destruct r, r'. cbn. by intros -> -> ->. Qed.

(** [check_level_up] on a stored row from which the loop runs to [r']. *)
Lemma check_level_up_run (m : message) (uid : Z) (w : world) (r r' : user)
    (ls : list Z) :
  users w !! uid = Some r → loop_run r ls r' →
  check_level_up m uid w =
  (Done tt,
   mk_world (<[uid := r']> (users w)) (last_sun w)
            (trace w ++ level_ups m ls ++ [SqlUpdate uid (level_up_kwargs r')])).
Proof.
  intros E Hrun. unfold check_level_up. rewrite get_unpack_run, E, bind_run.
  rewrite (level_up_loop_run r ls r' Hrun).
  2:{ pose proof (loop_run_length r ls r' Hrun). unfold level_up_loop_fuel. lia. }
  destruct (loop_run_effect r ls r' Hrun) as (Hc & Hw & Hd & _).
  unfold update_user, level_up_kwargs at 1. cbn [logged users last_sun trace].
  fold (level_up_kwargs r').
  rewrite (alter_present _ _ _ r E), level_up_kwargs_apply by done.
  by rewrite <- app_assoc.
Qed.

(** C9. From every level [>= 1] the loop of [check_level_up] ends: the
    requirement of each such level is strictly positive, the number of
    iterations is at most [MAX_LEVEL - level], every budget beyond that
    number yields the same normal result, and so [check_level_up] itself
    returns. *)
Theorem level_up_loop_terminates (m : message) (r : user) (w : world) :
  1 ≤ level r →
  (∀ l, 1 ≤ l → ∃ n, exp_needed_for l = Done n ∧ 0 < n) ∧
  (∃ ls r',
     (length ls ≤ Z.to_nat (MAX_LEVEL - level r))%nat ∧
     ∀ fuel, (length ls < fuel)%nat →
       level_up_loop fuel m r w = (Done r', logged (level_ups m ls) w)) ∧
  (∀ uid, users w !! uid = Some r →
     ∃ w', check_level_up m uid w = (Done tt, w')).
Proof.
  intros Hl. destruct (loop_run_total r) as (ls & r' & Hrun & Hlen); [lia|].
  split_and!.
  - apply exp_needed_for_pos.
  - exists ls, r'. split; [exact Hlen|].
    intros fuel Hfuel. by apply level_up_loop_run.
  - intros uid E. eexists. by eapply check_level_up_run.
Qed.

Lemma level_up_loop_terminates_witness :
  1 ≤ level (mk_user 0 0 0 1 700 0 0) ∧
  ∃ w', check_level_up alice 1
          (mk_world {[1 := mk_user 0 0 0 1 700 0 0]} None []) = (Done tt, w').
Proof.
  split; [cbn; lia|].
  refine (proj2 (proj2 (level_up_loop_terminates alice (mk_user 0 0 0 1 700 0 0)
                          (mk_world {[1 := mk_user 0 0 0 1 700 0 0]} None []) _))
                1 _).
  - cbn. lia.
  - reflexivity.
Defined.





(** What the rows written by [check_level_up] satisfy. *)
Lemma loop_run_invariant (r : user) (ls : list Z) (r' : user) :
  loop_run r ls r' →
  0 ≤ level r ≤ MAX_LEVEL → 0 ≤ exp r →
  level r ≤ level r' ≤ MAX_LEVEL ∧ 0 ≤ exp r' ∧
  (level r' < MAX_LEVEL →
   ∃ n, exp_needed_for (level r') = Done n ∧ exp r' < n).
Proof.
  intros Hrun Hl He.
  destruct (loop_run_effect r ls r' Hrun) as (_ & _ & _ & Hlv & _ & _ & _ & Hend).
  destruct (loop_run_bounds r ls r' Hrun) as [Hmax Hexp].
  assert (level r' ≤ MAX_LEVEL) by (apply Hmax; lia).
  assert (0 ≤ exp r') by (by apply Hexp).
  split_and!; try lia.
  intros Hlt. destruct (loop_test_false r' Hend) as [?|?]; [lia|done].
Qed.

(** Outside the data model: the loop stops the climb at [MAX_LEVEL] and
    does not clamp, so a row stored at level 21 would be written back at
    level 21.  No table the bot reaches holds such a row (see
    [run_all_well_formed]). *)
Lemma check_level_up_keeps_level_above_max :
  1 ≤ level overgrown ∧ 0 ≤ exp overgrown ∧
  users overgrown_world !! 1 = Some overgrown ∧
  ∃ w', check_level_up alice 1 overgrown_world = (Done tt, w') ∧
        users w' !! 1 = Some overgrown ∧
        ¬ level overgrown ≤ MAX_LEVEL.
Proof.
  split; [cbn; lia|]. split; [cbn; lia|]. split; [reflexivity|].
  eexists. split; [vm_compute; reflexivity|].
  split; [reflexivity|]. unfold MAX_LEVEL. cbn. lia.
Qed.

(** C4.  For a stored row of the data model ([1 <= level <= MAX_LEVEL],
    [exp >= 0]) that received a non-negative gain, [check_level_up] returns
    and leaves a row with [level <= MAX_LEVEL], [exp >= 0] and, below
    [MAX_LEVEL], [exp < exp_needed_for(level)]; at [MAX_LEVEL] the row keeps
    its level and all of its experience, and nothing is announced. *)
Theorem check_level_up_invariant (m : message) (uid : Z) (w : world)
    (r : user) (gain : Z) :
  users w !! uid = Some (assign r (set_exp (exp r + gain))) →
  1 ≤ level r ≤ MAX_LEVEL → 0 ≤ exp r → 0 ≤ gain →
  ∃ r' w',
    check_level_up m uid w = (Done tt, w') ∧
    users w' !! uid = Some r' ∧
    level r ≤ level r' ≤ MAX_LEVEL ∧
    0 ≤ exp r' ∧
    (level r' < MAX_LEVEL →
     ∃ n, exp_needed_for (level r') = Done n ∧ exp r' < n) ∧
    (level r = MAX_LEVEL →
     r' = assign r (set_exp (exp r + gain)) ∧
     w' = mk_world (users w) (last_sun w)
                   (trace w ++ [SqlUpdate uid (level_up_kwargs r')])).
Proof.
  intros E Hl He Hg. set (r0 := assign r (set_exp (exp r + gain))) in *.
  destruct (loop_run_total r0) as (ls & r' & Hrun & Hlen); [cbn; lia|].
  destruct (loop_run_invariant r0 ls r' Hrun) as (Hlv & Hexp & Hlt);
    [cbn; lia|cbn; lia|].
  exists r'. eexists. split; [by eapply check_level_up_run|].
  cbn [users]. split; [apply lookup_insert_eq|].
  assert (Hr0 : level r0 = level r) by reflexivity.
  split_and!; try done; try lia.
  intros Hmax. rewrite Hr0, Hmax, Z.sub_diag in Hlen.
  destruct ls; [|cbn in Hlen; lia].
  inversion Hrun; subst. split; [done|].
  cbn [level_ups map app]. by rewrite insert_id.
Qed.

Lemma check_level_up_invariant_witness :
  ∃ r' w',
    check_level_up alice 1
      (mk_world {[1 := mk_user 0 0 0 1 6 0 0]} None []) = (Done tt, w') ∧
    users w' !! 1 = Some r' ∧
    level r' = 2 ∧ exp r' = 1.
Proof.
  destruct (check_level_up_invariant alice 1
              (mk_world {[1 := mk_user 0 0 0 1 6 0 0]} None [])
              (mk_user 0 0 0 1 4 0 0) 2)
    as (r' & w' & Hrun & Hr' & _).
  - reflexivity.
  - unfold MAX_LEVEL. cbn. lia.
  - cbn. lia.
  - lia.
  - exists r', w'. split; [exact Hrun|]. split; [exact Hr'|].
    vm_compute in Hrun. injection Hrun as <-.
    vm_compute in Hr'. injection Hr' as <-. split; reflexivity.
Defined.

(** ** Timestamps *)

Lemma or_zero_Qeq (x : Q) : (or_zero x == x)%Q.
Proof.
  unfold or_zero. destruct (Qeq_bool x 0) eqn:E; [|reflexivity].
  apply Qeq_bool_eq in E. by symmetry.
Qed.

Lemma py_int_floor (x : Q) : (0 <= x)%Q → py_int x = Qfloor x.
Proof.
  destruct x as [n d]. unfold Qle, py_int, Qfloor. cbn. intros H.
  apply Z.quot_div_nonneg; lia.
Qed.

Lemma remaining_floor (D now T : Q) :
  (now - T < D)%Q → py_int (D - (now - T)) = Qfloor (D - (now - T)).
Proof. intros H. apply py_int_floor. lra. Qed.

Lemma remaining_floor_daily (D now T : Q) :
  (now - T < D)%Q → py_int ((T + D) - now) = Qfloor (D - (now - T)).
Proof.
  intros H. rewrite py_int_floor by lra. apply Qfloor_comp. ring.
Qed.

(** ** The gated handlers *)

Lemma update_user_run (uid : Z) (kw : list assignment) (w : world) (r : user) :
  kw ≠ [] → users w !! uid = Some r →
  update_user uid kw w =
  (Done tt,
   mk_world (<[uid := apply_kwargs kw r]> (users w)) (last_sun w)
            (trace w ++ [SqlUpdate uid kw])).
Proof.
  intros Hkw E. destruct kw as [|a kw]; [done|]. unfold update_user.
  by rewrite (alter_present _ _ _ r E).
Qed.

(** The common tail of the three handlers once the test passed: the reward
    update, the reply, then [check_level_up]. *)
Lemma reward_then_level_up (m : message) (w : world) (r : user)
    (kw : list assignment) (text : reply) (ls : list Z) (r' : user) :
  users w !! from_user_id m = Some r → kw ≠ [] →
  loop_run (apply_kwargs kw r) ls r' →
  (update_user (from_user_id m) kw;; answer m text;;
   check_level_up m (from_user_id m)) w =
  (Done tt,
   mk_world (<[from_user_id m := r']> (users w)) (last_sun w)
            (trace w ++
             [SqlUpdate (from_user_id m) kw; Answer (from_user_id m) text] ++
             level_ups m ls ++
             [SqlUpdate (from_user_id m) (level_up_kwargs r')])).
Proof.
  intros E Hkw Hrun.
  rewrite bind_run, (update_user_run _ _ _ r Hkw E), bind_run, answer_run.
  rewrite (check_level_up_run m _ _ (apply_kwargs kw r) r' ls);
    [|apply lookup_insert_eq|exact Hrun].
  cbn [logged users last_sun trace]. rewrite insert_insert_eq.
  by rewrite <- !app_assoc.
Qed.

Lemma handler_water_run (m : message) (t_new now : Q) (w : world) (r : user) :
  users (ensured t_new (from_user_id m) w) !! from_user_id m = Some r →
  handler_water m t_new now w =
  if Qlt_le_dec (now - or_zero (last_water r)) WATER_COOLDOWN then
    (Done tt,
     logged [Answer (from_user_id m)
               (wait_reply Water (py_int (WATER_COOLDOWN - (now - last_water r))))]
            (ensured t_new (from_user_id m) w))
  else
    (update_user (from_user_id m) (reward_kwargs Water r now);;
     answer m (done_reply Water r);;
     check_level_up m (from_user_id m)) (ensured t_new (from_user_id m) w).
Proof.
  intros E. unfold handler_water.
  rewrite bind_run, ensure_user_run, get_unpack_run, E.
  by destruct (Qlt_le_dec _ _).
Qed.

Lemma handler_sun_run (m : message) (t_new now : Q) (w : world) (r : user) :
  users (ensured t_new (from_user_id m) w) !! from_user_id m = Some r →
  handler_sun m t_new now w =
  if Qlt_le_dec (now - default 0%Q (last_sun w)) SUN_COOLDOWN then
    (Done tt,
     logged [Answer (from_user_id m)
               (wait_reply Sun
                  (py_int (SUN_COOLDOWN - (now - default 0%Q (last_sun w)))))]
            (ensured t_new (from_user_id m) w))
  else
    (update_user (from_user_id m) (reward_kwargs Sun r now);;
     answer m (done_reply Sun r);;
     check_level_up m (from_user_id m))
      (mk_world (users (ensured t_new (from_user_id m) w)) (Some now)
                (trace (ensured t_new (from_user_id m) w))).
Proof.
  intros E. unfold handler_sun.
  rewrite bind_run, ensure_user_run, get_unpack_run, E.
  rewrite bind_run. unfold getattr_last_sun.
  assert (Ha : last_sun (ensured t_new (from_user_id m) w) = last_sun w).
  { unfold ensured, ensure_user. by destruct (users w !! from_user_id m). }
  rewrite Ha. destruct (last_sun w) as [a|]; cbn [from_option default id];
    by destruct (Qlt_le_dec _ _).
Qed.

Lemma handler_daily_run (m : message) (t_new now : Q) (w : world) (r : user) :
  users (ensured t_new (from_user_id m) w) !! from_user_id m = Some r →
  handler_daily m t_new now w =
  if Qlt_le_dec (now - or_zero (last_daily r)) DAILY_COOLDOWN then
    (Done tt,
     logged [Answer (from_user_id m)
               (wait_reply Daily (py_int ((last_daily r + DAILY_COOLDOWN) - now)))]
            (ensured t_new (from_user_id m) w))
  else
    (update_user (from_user_id m) (reward_kwargs Daily r now);;
     answer m (done_reply Daily r);;
     check_level_up m (from_user_id m)) (ensured t_new (from_user_id m) w).
Proof.
  intros E. unfold handler_daily.
  rewrite bind_run, ensure_user_run, get_unpack_run, E.
  by destruct (Qlt_le_dec _ _).
Qed.

Lemma ensured_last_sun (t_new : Q) (uid : Z) (w : world) :
  last_sun (ensured t_new uid w) = last_sun w.
Proof. unfold ensured, ensure_user. by destruct (users w !! uid). Qed.

Lemma reward_kwargs_level (c : command) (r : user) (now : Q) :
  level (apply_kwargs (reward_kwargs c r now) r) = level r.
Proof. by destruct c. Qed.

Lemma reward_kwargs_nonempty (c : command) (r : user) (now : Q) :
  gated c → reward_kwargs c r now ≠ [].
Proof. by intros [->|[->| ->]]. Qed.

(** A gated command whose test fails answers with the wait message and
    does nothing else. *)
Lemma gated_blocked_run (c : command) (m : message) (t_new now : Q)
    (w : world) (r : user) :
  gated c →
  users (ensured t_new (from_user_id m) w) !! from_user_id m = Some r →
  (now - last_performed c w r < cooldown_of c)%Q →
  dispatch c m t_new now w =
  (Done tt,
   logged [Answer (from_user_id m)
             (wait_reply c
                (Qfloor (cooldown_of c - (now - last_performed c w r))))]
          (ensured t_new (from_user_id m) w)).
Proof.
  intros [->|[->| ->]] E Hlt; cbn [dispatch cooldown_of last_performed] in *.
  - rewrite (handler_water_run _ _ _ _ r E).
    destruct (Qlt_le_dec _ _) as [_|Hge].
    + by rewrite remaining_floor.
    + rewrite or_zero_Qeq in Hge. lra.
  - rewrite (handler_sun_run _ _ _ _ r E).
    destruct (Qlt_le_dec _ _) as [_|Hge]; [|lra].
    by rewrite remaining_floor.
  - rewrite (handler_daily_run _ _ _ _ r E).
    destruct (Qlt_le_dec _ _) as [_|Hge].
    + by rewrite remaining_floor_daily.
    + rewrite or_zero_Qeq in Hge. lra.
Qed.

(** A gated command whose test passes writes its reward, answers, and
    hands over to [check_level_up], which announces the levels gained and
    writes the row the loop ends with. *)
Lemma gated_allowed_run (c : command) (m : message) (t_new now : Q)
    (w : world) (r : user) :
  gated c →
  users (ensured t_new (from_user_id m) w) !! from_user_id m = Some r →
  0 ≤ level r →
  ¬ (now - last_performed c w r < cooldown_of c)%Q →
  ∃ ls r',
    loop_run (apply_kwargs (reward_kwargs c r now) r) ls r' ∧
    dispatch c m t_new now w =
    (Done tt,
     mk_world (<[from_user_id m := r']> (users (ensured t_new (from_user_id m) w)))
              (last_sun_after c w now)
              (trace (ensured t_new (from_user_id m) w) ++
               [SqlUpdate (from_user_id m) (reward_kwargs c r now);
                Answer (from_user_id m) (done_reply c r)] ++
               level_ups m ls ++
               [SqlUpdate (from_user_id m) (level_up_kwargs r')])).
Proof.
  intros Hc E Hl Hge.
  destruct (loop_run_total (apply_kwargs (reward_kwargs c r now) r))
    as (ls & r' & Hrun & _); [rewrite reward_kwargs_level; lia|].
  exists ls, r'. split; [exact Hrun|].
  pose proof (reward_kwargs_nonempty c r now Hc) as Hkw.
  destruct Hc as [->|[->| ->]]; cbn [dispatch cooldown_of last_performed] in *.
  - rewrite (handler_water_run _ _ _ _ r E).
    destruct (Qlt_le_dec _ _) as [Hlt|_].
    + rewrite or_zero_Qeq in Hlt. contradiction.
    + rewrite (reward_then_level_up m _ r _ _ ls r' E Hkw Hrun).
      by rewrite ensured_last_sun.
  - rewrite (handler_sun_run _ _ _ _ r E).
    destruct (Qlt_le_dec _ _) as [Hlt|_]; [contradiction|].
    by rewrite (reward_then_level_up m (mk_world _ (Some now) _) r _ _ ls r'
                  E Hkw Hrun).
  - rewrite (handler_daily_run _ _ _ _ r E).
    destruct (Qlt_le_dec _ _) as [Hlt|_].
    + rewrite or_zero_Qeq in Hlt. contradiction.
    + rewrite (reward_then_level_up m _ r _ _ ls r' E Hkw Hrun).
      by rewrite ensured_last_sun.
Qed.

Lemma allowed_not_blocked (c : command) (m : message) (t_new now : Q)
    (w : world) (r : user) :
  gated c →
  users (ensured t_new (from_user_id m) w) !! from_user_id m = Some r →
  0 ≤ level r →
  ¬ (now - last_performed c w r < cooldown_of c)%Q →
  ¬ blocked c m t_new now w.
Proof.
  intros Hc E Hl Hge [text Hb].
  destruct (gated_allowed_run c m t_new now w r Hc E Hl Hge)
    as (ls & r' & _ & Hrun).
  rewrite Hrun in Hb. injection Hb as _ _ Htr.
  apply app_inv_head in Htr. discriminate.
Qed.

(** C5. For water, sun and daily bonus, with [D] the duration and [T] the
    timestamp the test reads: the command is blocked iff [now - T < D], so
    it is allowed when [now - T] is exactly [D]; when blocked, its only
    effect is the wait message built from the whole seconds of
    [D - (now - T)], the table being left as it is; and a second blocked
    attempt, made later, shows a remaining time that is no greater and
    again changes nothing. *)
Theorem cooldown_gate (c : command) (m : message) (t_new now : Q)
    (w : world) (r : user) :
  gated c →
  users (ensured t_new (from_user_id m) w) !! from_user_id m = Some r →
  1 ≤ level r →
  (blocked c m t_new now w ↔ (now - last_performed c w r < cooldown_of c)%Q) ∧
  ((now - last_performed c w r == cooldown_of c)%Q → ¬ blocked c m t_new now w) ∧
  ((now - last_performed c w r < cooldown_of c)%Q →
   let remain := Qfloor (cooldown_of c - (now - last_performed c w r)) in
   let w1 := logged [Answer (from_user_id m) (wait_reply c remain)]
                    (ensured t_new (from_user_id m) w) in
   dispatch c m t_new now w = (Done tt, w1) ∧
   users w1 = users (ensured t_new (from_user_id m) w) ∧
   last_sun w1 = last_sun w ∧
   ∀ t_new2 now2,
     (now <= now2)%Q →
     (now2 - last_performed c w r < cooldown_of c)%Q →
     let remain2 := Qfloor (cooldown_of c - (now2 - last_performed c w r)) in
     dispatch c m t_new2 now2 w1 =
     (Done tt, logged [Answer (from_user_id m) (wait_reply c remain2)] w1) ∧
     remain2 ≤ remain).
Proof.
  intros Hc E Hl. split_and!.
  - split.
    + intros Hb. destruct (Qlt_le_dec (now - last_performed c w r) (cooldown_of c))
        as [Hlt|Hge]; [exact Hlt|].
      exfalso. apply (allowed_not_blocked c m t_new now w r); try done; [lia|lra].
    + intros Hlt. eexists. by apply (gated_blocked_run c m t_new now w r).
  - intros Heq. apply (allowed_not_blocked c m t_new now w r); try done; [lia|lra].
  - intros Hlt remain w1. split_and!.
    + by apply (gated_blocked_run c m t_new now w r).
    + reflexivity.
    + apply ensured_last_sun.
    + intros t_new2 now2 Hle Hlt2 remain2.
      assert (E1 : users w1 !! from_user_id m = Some r) by exact E.
      assert (Hw1 : ensured t_new2 (from_user_id m) w1 = w1)
        by (by apply (ensured_present _ _ _ r)).
      assert (HT : last_performed c w1 r = last_performed c w r).
      { destruct c; try reflexivity. cbn [last_performed].
        unfold w1. cbn [logged last_sun]. by rewrite ensured_last_sun. }
      split.
      * rewrite (gated_blocked_run c m t_new2 now2 w1 r Hc);
          rewrite ?Hw1, ?HT; done.
      * apply Qfloor_resp_le. lra.
Qed.

Lemma cooldown_gate_witness :
  blocked Water alice 1000 1000
    (mk_world {[1 := mk_user 0 900 0 1 2 0 1]} None []) ↔
  (1000 - 900 < WATER_COOLDOWN)%Q.
Proof.
  refine (proj1 (cooldown_gate Water alice 1000 1000
                   (mk_world {[1 := mk_user 0 900 0 1 2 0 1]} None [])
                   (mk_user 0 900 0 1 2 0 1) _ _ _)).
  - by left.
  - reflexivity.
  - cbn. lia.
Defined.

(** C7. A daily bonus that passes its test at level [L] writes, in one
    update, [sun + 1 + L // 5], [water + 1 + L // 6], [exp + 5 + L] and
    [last_daily = now], and says so in its reply; at level 10 these are
    [sun + 3], [water + 2] and [exp + 15].  [check_level_up] then runs on
    the row so rewarded, adding one sun and one water per level gained and
    leaving [last_daily] at [now]. *)
Theorem handler_daily_reward (m : message) (t_new now : Q) (w : world)
    (r : user) :
  users (ensured t_new (from_user_id m) w) !! from_user_id m = Some r →
  1 ≤ level r →
  ¬ (now - last_daily r < DAILY_COOLDOWN)%Q →
  ∃ ls r',
    handler_daily m t_new now w =
    (Done tt,
     mk_world (<[from_user_id m := r']> (users (ensured t_new (from_user_id m) w)))
              (last_sun w)
              (trace (ensured t_new (from_user_id m) w) ++
               [SqlUpdate (from_user_id m)
                  [set_sun (sun r + (1 + level r `div` 5));
                   set_water (water r + (1 + level r `div` 6));
                   set_exp (exp r + (5 + level r)); set_last_daily now];
                Answer (from_user_id m)
                  (DailyDone (1 + level r `div` 5) (1 + level r `div` 6)
                             (5 + level r))] ++
               level_ups m ls ++
               [SqlUpdate (from_user_id m) (level_up_kwargs r')])) ∧
    loop_run
      (mk_user (created r) (last_water r) now (level r)
               (exp r + (5 + level r)) (sun r + (1 + level r `div` 5))
               (water r + (1 + level r `div` 6)))
      ls r' ∧
    last_daily r' = now ∧
    sun r' = sun r + (1 + level r `div` 5) + Z.of_nat (length ls) ∧
    water r' = water r + (1 + level r `div` 6) + Z.of_nat (length ls) ∧
    level r' = level r + Z.of_nat (length ls) ∧
    (level r = 10 →
     reward_kwargs Daily r now =
     [set_sun (sun r + 3); set_water (water r + 2); set_exp (exp r + 15);
      set_last_daily now]).
Proof.
  intros E Hl Hge.
  destruct (gated_allowed_run Daily m t_new now w r) as (ls & r' & Hrun & Hres);
    [by right; right|exact E|lia|exact Hge|].
  exists ls, r'. split; [exact Hres|].
  cbn [reward_kwargs apply_kwargs fold_left assign] in Hrun.
  cbn [created last_water last_daily level exp sun water] in Hrun.
  split; [exact Hrun|].
  destruct (loop_run_effect _ ls r' Hrun) as (_ & _ & Hd & Hlv & Hs & Hw & _).
  cbn in Hd, Hlv, Hs, Hw. split_and!; try done.
  intros H10. cbn [reward_kwargs]. by rewrite H10.
Qed.

Lemma handler_daily_reward_witness :
  ∃ ls r',
    handler_daily alice 90000 90000
      (mk_world {[1 := mk_user 0 0 0 10 7 4 5]} None []) =
    (Done tt,
     mk_world (<[1 := r']> {[1 := mk_user 0 0 0 10 7 4 5]}) None
              ([SqlUpdate 1
                  [set_sun 7; set_water 7; set_exp 22; set_last_daily 90000];
                Answer 1 (DailyDone 3 2 15)] ++
               level_ups alice ls ++ [SqlUpdate 1 (level_up_kwargs r')])).
Proof.
  destruct (handler_daily_reward alice 90000 90000
              (mk_world {[1 := mk_user 0 0 0 10 7 4 5]} None [])
              (mk_user 0 0 0 10 7 4 5))
    as (ls & r' & Hres & _).
  - reflexivity.
  - cbn. lia.
  - vm_compute. intros H. discriminate H.
  - exists ls, r'. exact Hres.
Defined.

(** ** One update or two *)

Lemma replay_app (es1 es2 : list event) (db : gmap Z user) :
  replay (es1 ++ es2) db = replay es2 (replay es1 db).
Proof. apply fold_left_app. Qed.

Lemma replay_level_ups (m : message) (ls : list Z) (db : gmap Z user) :
  replay (level_ups m ls) db = db.
Proof. revert db. induction ls as [|l ls IH]; intros db; [done|]. apply IH. Qed.

Lemma updates_app (es1 es2 : list event) :
  updates (es1 ++ es2) = updates es1 ++ updates es2.
Proof. apply filter_app. Qed.

Lemma updates_level_ups (m : message) (ls : list Z) :
  updates (level_ups m ls) = [].
Proof. induction ls as [|l ls IH]; [done|]. exact IH. Qed.

(** C2 as stated fails: Alice's third action, a water at time 1300, commits
    two updates; after the first the table holds her reward (6 experience
    at level 1, where the loop test is true) and not yet her level-up. *)
Lemma handler_water_commits_twice :
  users alice_at_4 !! 1 = Some (mk_user 1000 1000 0 1 4 1 1) ∧
  handler_water alice 1300 1300 alice_at_4 =
  (Done tt,
   mk_world {[1 := mk_user 1000 1300 0 2 1 2 3]} (Some 1000%Q)
            (trace alice_at_4 ++
             [SqlUpdate 1 [set_water 2; set_exp 6; set_last_water 1300];
              Answer 1 WaterDone;
              Answer 1 (LevelUp 2);
              SqlUpdate 1 [set_level 2; set_exp 1; set_sun 2; set_water 3]])) ∧
  replay [SqlUpdate 1 [set_water 2; set_exp 6; set_last_water 1300]]
         (users alice_at_4) !! 1 =
  Some (mk_user 1000 1300 0 1 6 1 2) ∧
  loop_test (mk_user 1000 1300 0 1 6 1 2) = Done true.
Proof. split_and!; vm_compute; reflexivity. Qed.

(** C2, amended.  A water, sun or daily-bonus command on a row of level at
    least 1 returns normally.  Blocked, it commits nothing.  Allowed, it
    commits exactly two updates: first the reward fields (with the cooldown
    timestamp for water and daily bonus), and, once the level-up loop has
    run on the rewarded row and every level gained has been announced,
    level, experience, sun and water of the row the loop ends with.  The
    table it leaves is the replay of these statements. *)
Theorem gated_commands_commit_twice (c : command) (m : message)
    (t_new now : Q) (w : world) (r : user) :
  gated c →
  users (ensured t_new (from_user_id m) w) !! from_user_id m = Some r →
  1 ≤ level r →
  ∃ es w',
    dispatch c m t_new now w = (Done tt, w') ∧
    trace w' = trace (ensured t_new (from_user_id m) w) ++ es ∧
    users w' = replay es (users (ensured t_new (from_user_id m) w)) ∧
    ((now - last_performed c w r < cooldown_of c)%Q → updates es = []) ∧
    (¬ (now - last_performed c w r < cooldown_of c)%Q →
     ∃ ls r',
       loop_run (apply_kwargs (reward_kwargs c r now) r) ls r' ∧
       es = [SqlUpdate (from_user_id m) (reward_kwargs c r now);
             Answer (from_user_id m) (done_reply c r)] ++
            level_ups m ls ++
            [SqlUpdate (from_user_id m) (level_up_kwargs r')] ∧
       updates es = [SqlUpdate (from_user_id m) (reward_kwargs c r now);
                     SqlUpdate (from_user_id m) (level_up_kwargs r')] ∧
       users w' !! from_user_id m = Some r').
Proof.
  intros Hc E Hl.
  destruct (Qlt_le_dec (now - last_performed c w r) (cooldown_of c)) as [Hlt|Hge].
  - eexists _, _. split; [by apply (gated_blocked_run c m t_new now w r)|].
    split_and!; done.
  - assert (Hn : ¬ (now - last_performed c w r < cooldown_of c)%Q) by lra.
    destruct (gated_allowed_run c m t_new now w r Hc E) as (ls & r' & Hrun & Hres);
      [lia|exact Hn|].
    eexists _, _. split; [exact Hres|]. cbn [trace users].
    assert (Hup : updates
              ([SqlUpdate (from_user_id m) (reward_kwargs c r now);
                Answer (from_user_id m) (done_reply c r)] ++
               level_ups m ls ++
               [SqlUpdate (from_user_id m) (level_up_kwargs r')]) =
            [SqlUpdate (from_user_id m) (reward_kwargs c r now);
             SqlUpdate (from_user_id m) (level_up_kwargs r')]).
    { by rewrite !updates_app, (updates_level_ups m ls). }
    split_and!; try done.
    + rewrite !replay_app, replay_level_ups. cbn [replay fold_left replay_event].
      rewrite (alter_present _ _ _ r E).
      rewrite (alter_present _ _ _ (apply_kwargs (reward_kwargs c r now) r))
        by apply lookup_insert_eq.
      rewrite insert_insert_eq. f_equal.
      destruct (loop_run_effect _ ls r' Hrun) as (Hc' & Hw & Hd & _).
      by rewrite level_up_kwargs_apply.
    + intros _. exists ls, r'. split_and!; try done. apply lookup_insert_eq.
Qed.

Lemma gated_commands_commit_twice_witness :
  ∃ es w',
    dispatch Sun alice 1000 1000 initial_world = (Done tt, w') ∧
    trace w' = trace (ensured 1000 1 initial_world) ++ es ∧
    length (updates es) = 2%nat.
Proof.
  destruct (gated_commands_commit_twice Sun alice 1000 1000 initial_world
              (mk_user 1000 0 0 1 0 0 0))
    as (es & w' & Hres & Htr & _ & _ & Hallowed).
  - right. by left.
  - reflexivity.
  - cbn. lia.
  - exists es, w'. split; [exact Hres|]. split; [exact Htr|].
    destruct Hallowed as (ls & r' & _ & _ & -> & _); [|reflexivity].
    vm_compute. intros H. discriminate H.
Defined.

(** ** The cooldown of sun *)

(** C1 fails on the code: the timestamp of the last sun is an attribute of
    [handler_sun], shared by all users and absent from the update.  After
    Alice's sun at time 1000 (whose only update sets sun and experience),
    Bob, who has no row yet and never gave sun, is blocked at time 1001
    with 9 minutes 59 seconds to wait, while the same request without
    Alice's action is served. *)
Theorem handler_sun_cooldown_is_shared :
  trace after_alice_sun =
  [SqlInsert 1 (mk_user 1000 0 0 1 0 0 0);
   SqlUpdate 1 [set_sun 1; set_exp 2];
   Answer 1 SunDone;
   SqlUpdate 1 [set_level 1; set_exp 2; set_sun 1; set_water 0]] ∧
  last_sun after_alice_sun = Some 1000%Q ∧
  users after_alice_sun !! 2 = None ∧
  handler_sun bob 1001 1001 after_alice_sun =
  (Done tt,
   mk_world (<[2 := mk_user 1001 0 0 1 0 0 0]> (users after_alice_sun))
            (Some 1000%Q)
            (trace after_alice_sun ++
             [SqlInsert 2 (mk_user 1001 0 0 1 0 0 0); Answer 2 (SunWait 9 59)])) ∧
  users (handler_sun bob 1001 1001 initial_world).2 !! 2 =
  Some (mk_user 1001 0 0 1 2 1 0).
Proof. split_and!; vm_compute; reflexivity. Qed.

(** ** The store *)

(** C8. [ensure_user] inserts the initial row (level 1, every counter and
    cooldown timestamp 0, [created] at the time of the call) when the user
    has none, and does nothing when the user has one; a second call, at
    whatever time, leaves the world of the first. *)
Theorem ensure_user_idempotent (t1 t2 : Q) (uid : Z) (w : world) :
  (users w !! uid = None →
   ensure_user t1 uid w =
   (Done tt,
    mk_world (<[uid := mk_user t1 0 0 1 0 0 0]> (users w)) (last_sun w)
             (trace w ++ [SqlInsert uid (mk_user t1 0 0 1 0 0 0)]))) ∧
  (∀ r, users w !! uid = Some r → ensure_user t1 uid w = (Done tt, w)) ∧
  ensure_user t2 uid (ensure_user t1 uid w).2 = ensure_user t1 uid w ∧
  (ensure_user t1 uid;; ensure_user t2 uid) w = ensure_user t1 uid w.
Proof.
  assert (H2 : ensure_user t2 uid (ensure_user t1 uid w).2 = ensure_user t1 uid w).
  { rewrite (ensure_user_run t1). cbn [snd].
    unfold ensure_user at 1. by rewrite ensured_lookup. }
  split_and!.
  - intros E. unfold ensure_user. by rewrite E.
  - intros r E. unfold ensure_user. by rewrite E.
  - exact H2.
  - rewrite bind_run. rewrite (ensure_user_run t1) in *. exact H2.
Qed.

Lemma ensure_user_idempotent_witness :
  ensure_user 7 1 initial_world =
  (Done tt,
   mk_world {[1 := mk_user 7 0 0 1 0 0 0]} None
            [SqlInsert 1 (mk_user 7 0 0 1 0 0 0)]) ∧
  ensure_user 9 1 (ensure_user 7 1 initial_world).2 =
  ensure_user 7 1 initial_world.
Proof.
  split.
  - apply (proj1 (ensure_user_idempotent 7 9 1 initial_world)). reflexivity.
  - apply (proj1 (proj2 (proj2 (ensure_user_idempotent 7 9 1 initial_world)))).
Defined.

(** ** Other users *)

Lemma keeps_others_ret {A} (uid : Z) (a : A) : keeps_others uid (mret a).
Proof. by intros w B _. Qed.

Lemma keeps_others_lift {A} (uid : Z) (o : outcome A) : keeps_others uid (lift o).
Proof. by intros w B _. Qed.

Lemma keeps_others_bind {A B} (uid : Z) (c : M A) (f : A → M B) :
  keeps_others uid c → (∀ a, keeps_others uid (f a)) →
  keeps_others uid (c ≫= f).
Proof.
  intros Hc Hf w k Hk. rewrite bind_run. specialize (Hc w k Hk).
  destruct (c w) as [[a|e|] w1]; cbn [snd] in *; [|done..].
  by rewrite (Hf a w1 k Hk).
Qed.

Lemma keeps_others_answer (uid : Z) (m : message) (text : reply) :
  keeps_others uid (answer m text).
Proof. by intros w B _. Qed.

Lemma keeps_others_ensure_user (t_new : Q) (uid : Z) :
  keeps_others uid (ensure_user t_new uid).
Proof.
  intros w B HB. unfold ensure_user. destruct (users w !! uid); [done|].
  cbn. by apply lookup_insert_ne.
Qed.

Lemma keeps_others_update_user (uid : Z) (kw : list assignment) :
  keeps_others uid (update_user uid kw).
Proof.
  intros w B HB. destruct kw as [|a kw]; [done|]. cbn.
  by apply lookup_alter_ne.
Qed.

Lemma keeps_others_get_unpack {A} (uid uid0 : Z) (k : Z → user → M A) :
  (∀ r, keeps_others uid (k uid0 r)) →
  keeps_others uid (u ← get_user uid0; '(uid', r) ← unpack u; k uid' r).
Proof.
  intros Hk w B HB. rewrite get_unpack_run.
  destruct (users w !! uid0) as [r|]; [by apply Hk|done].
Qed.

Lemma keeps_others_level_up_loop (uid : Z) (fuel : nat) (m : message) (r : user) :
  keeps_others uid (level_up_loop fuel m r).
Proof.
  revert r. induction fuel as [|fuel IH]; intros r; [apply keeps_others_lift|].
  cbn [level_up_loop]. apply keeps_others_bind; [apply keeps_others_lift|].
  intros [|]; [|apply keeps_others_ret].
  apply keeps_others_bind; [apply keeps_others_lift|]. intros r1.
  apply keeps_others_bind; [apply keeps_others_answer|]. intros _. apply IH.
Qed.

Lemma keeps_others_check_level_up (m : message) (uid : Z) :
  keeps_others uid (check_level_up m uid).
Proof.
  unfold check_level_up. apply keeps_others_get_unpack. intros r.
  apply keeps_others_bind; [apply keeps_others_level_up_loop|]. intros r'.
  apply keeps_others_update_user.
Qed.

Lemma keeps_others_dispatch (c : command) (m : message) (t_new now : Q) :
  keeps_others (from_user_id m) (dispatch c m t_new now).
Proof.
  pose proof keeps_others_answer. pose proof keeps_others_ensure_user.
  pose proof keeps_others_update_user. pose proof keeps_others_check_level_up.
  pose proof (@keeps_others_lift).
  destruct c; cbn [dispatch];
    unfold cmd_start, handler_status, handler_water, handler_sun,
      handler_roadmap, handler_staking, handler_daily, handler_profile,
      fallback, init_db;
    repeat first
      [ done
      | apply keeps_others_ret
      | apply keeps_others_get_unpack; intros ?
      | apply keeps_others_bind; [|intros ?]
      | destruct (Qlt_le_dec _ _)
      | by intros ? ? ? ].
Qed.

Lemma same_view_refl (uid : Z) (w : world) : same_view uid w w.
Proof. by split. Qed.

Lemma local_to_ret {A} (uid : Z) (a : A) : local_to uid (mret a).
Proof.
  intros w1 w2 Hv. split_and!; [done..|]. exists []. by rewrite !app_nil_r.
Qed.

Lemma local_to_lift {A} (uid : Z) (o : outcome A) : local_to uid (lift o).
Proof.
  intros w1 w2 Hv. split_and!; [done..|]. exists []. by rewrite !app_nil_r.
Qed.

Lemma local_to_answer (uid : Z) (m : message) (text : reply) :
  local_to uid (answer m text).
Proof. intros w1 w2 Hv. split_and!; [done..|]. by eexists. Qed.

Lemma local_to_bind {A B} (uid : Z) (c : M A) (f : A → M B) :
  local_to uid c → (∀ a, local_to uid (f a)) → local_to uid (c ≫= f).
Proof.
  intros Hc Hf w1 w2 Hv. rewrite !bind_run.
  destruct (Hc w1 w2 Hv) as (Ho & Hv' & es & H1 & H2).
  destruct (c w1) as [o1 w1'], (c w2) as [o2 w2']. cbn [fst snd] in *. subst o2.
  destruct o1 as [a|e|]; cbn [fst snd]; [|split_and!; eauto..].
  destruct (Hf a w1' w2' Hv') as (Ho & Hv'' & es' & H1' & H2').
  split_and!; [done..|]. exists (es ++ es').
  by rewrite H1', H2', H1, H2, !app_assoc.
Qed.

Lemma local_to_ensure_user (t_new : Q) (uid : Z) :
  local_to uid (ensure_user t_new uid).
Proof.
  intros w1 w2 [Hu Ha]. unfold ensure_user. rewrite <- Hu.
  destruct (users w1 !! uid) as [r|] eqn:E.
  - split_and!; [done| |exists []; by rewrite !app_nil_r].
    split; [cbn; congruence|done].
  - split_and!; [done| |by eexists].
    split; [cbn; by rewrite !lookup_insert_eq|done].
Qed.

Lemma local_to_update_user (uid : Z) (kw : list assignment) :
  local_to uid (update_user uid kw).
Proof.
  destruct kw as [|a kw]; [apply local_to_ret|].
  intros w1 w2 [Hu Ha]. split_and!; [done| |by eexists].
  split; [cbn; by rewrite !lookup_alter_eq, Hu|done].
Qed.

Lemma local_to_getattr_last_sun (uid : Z) (d : Q) :
  local_to uid (getattr_last_sun d).
Proof.
  intros w1 w2 [Hu Ha]. unfold getattr_last_sun. cbn. rewrite Ha.
  split_and!; [done..|]. exists []. by rewrite !app_nil_r.
Qed.

Lemma local_to_setattr_last_sun (uid : Z) (now : Q) :
  local_to uid (setattr_last_sun now).
Proof.
  intros w1 w2 [Hu Ha]. split_and!; [done..|]. exists []. cbn.
  by rewrite !app_nil_r.
Qed.

Lemma local_to_get_unpack {A} (uid : Z) (k : Z → user → M A) :
  (∀ r, local_to uid (k uid r)) →
  local_to uid (u ← get_user uid; '(uid', r) ← unpack u; k uid' r).
Proof.
  intros Hk w1 w2 Hv. rewrite !get_unpack_run. destruct Hv as [Hu Ha].
  rewrite <- Hu. destruct (users w1 !! uid) as [r|] eqn:E.
  - apply Hk. split; [congruence|done].
  - split_and!; [done| |exists []; by rewrite !app_nil_r].
    split; [cbn; congruence|done].
Qed.

Lemma local_to_level_up_loop (uid : Z) (fuel : nat) (m : message) (r : user) :
  local_to uid (level_up_loop fuel m r).
Proof.
  revert r. induction fuel as [|fuel IH]; intros r; [apply local_to_lift|].
  cbn [level_up_loop]. apply local_to_bind; [apply local_to_lift|].
  intros [|]; [|apply local_to_ret].
  apply local_to_bind; [apply local_to_lift|]. intros r1.
  apply local_to_bind; [apply local_to_answer|]. intros _. apply IH.
Qed.

Lemma local_to_check_level_up (m : message) (uid : Z) :
  local_to uid (check_level_up m uid).
Proof.
  unfold check_level_up. apply local_to_get_unpack. intros r.
  apply local_to_bind; [apply local_to_level_up_loop|]. intros r'.
  apply local_to_update_user.
Qed.

Lemma local_to_dispatch (c : command) (m : message) (t_new now : Q) :
  local_to (from_user_id m) (dispatch c m t_new now).
Proof.
  destruct c; cbn [dispatch];
    unfold cmd_start, handler_status, handler_water, handler_sun,
      handler_roadmap, handler_staking, handler_daily, handler_profile,
      fallback, init_db;
    repeat first
      [ apply local_to_ret
      | apply local_to_lift
      | apply local_to_answer
      | apply local_to_ensure_user
      | apply local_to_update_user
      | apply local_to_check_level_up
      | apply local_to_getattr_last_sun
      | apply local_to_setattr_last_sun
      | apply local_to_get_unpack; intros ?
      | apply local_to_bind; [|intros ?]
      | destruct (Qlt_le_dec _ _) ].
Qed.

(** C10. Whatever the command, the message of user [A] leaves the stored
    row of every other user [B] as it was (present or absent, with the same
    seven columns under the same key), and what it does is decided by the
    row of [A] and the attribute of [handler_sun] alone: from two worlds
    that agree on these, the outcome, the statements and replies appended,
    and the row of [A] afterwards are the same. *)
Theorem dispatch_keeps_other_users (c : command) (m : message)
    (t_new now : Q) (w : world) :
  (∀ B, B ≠ from_user_id m →
        users (dispatch c m t_new now w).2 !! B = users w !! B) ∧
  (∀ w2, same_view (from_user_id m) w w2 →
         (dispatch c m t_new now w).1 = (dispatch c m t_new now w2).1 ∧
         same_view (from_user_id m)
           (dispatch c m t_new now w).2 (dispatch c m t_new now w2).2 ∧
         ∃ es, trace (dispatch c m t_new now w).2 = trace w ++ es ∧
               trace (dispatch c m t_new now w2).2 = trace w2 ++ es).
Proof.
  split.
  - intros B HB. by apply keeps_others_dispatch.
  - intros w2 Hv. by apply local_to_dispatch.
Qed.

Lemma dispatch_keeps_other_users_witness :
  users (dispatch Daily bob 90000 90000 alice_at_4).2 !! 1 =
  Some (mk_user 1000 1000 0 1 4 1 1).
Proof.
  rewrite (proj1 (dispatch_keeps_other_users Daily bob 90000 90000 alice_at_4) 1).
  - reflexivity.
  - cbn. lia.
Defined.

(** ** The invariants of the data model between two messages *)

Lemma well_formed_initial : well_formed initial_world.
Proof. intros uid r E. cbn in E. by rewrite lookup_empty in E. Qed.

Lemma well_formed_row_new (t_new : Q) : well_formed_row (mk_user t_new 0 0 1 0 0 0).
Proof.
  unfold well_formed_row, MAX_LEVEL. cbn. split_and!; try lia.
  intros _. exists 5. split; [reflexivity|lia].
Qed.

Lemma well_formed_ensured (t_new : Q) (uid : Z) (w : world) :
  well_formed w → well_formed (ensured t_new uid w).
Proof.
  intros Hw k r. unfold ensured, ensure_user.
  destruct (users w !! uid) eqn:E; cbn [snd users]; [apply Hw|].
  rewrite lookup_insert. destruct (decide (uid = k)) as [->|]; [|apply Hw].
  intros [= <-]. apply well_formed_row_new.
Qed.

Lemma well_formed_logged (es : list event) (w : world) :
  well_formed w → well_formed (logged es w).
Proof. done. Qed.

Lemma well_formed_insert (uid : Z) (r : user) (w : world) (a : option Q)
    (tr : list event) :
  well_formed w → well_formed_row r →
  well_formed (mk_world (<[uid := r]> (users w)) a tr).
Proof.
  intros Hw Hr k r0. cbn [users]. rewrite lookup_insert.
  destruct (decide (uid = k)) as [->|]; [|apply Hw]. by intros [= <-].
Qed.

(** The row a gated command rewards still has its level, and counters
    that are no smaller. *)
Lemma reward_kwargs_effect (c : command) (r : user) (now : Q) :
  gated c → 0 ≤ level r →
  level (apply_kwargs (reward_kwargs c r now) r) = level r ∧
  exp r ≤ exp (apply_kwargs (reward_kwargs c r now) r) ∧
  sun r ≤ sun (apply_kwargs (reward_kwargs c r now) r) ∧
  water r ≤ water (apply_kwargs (reward_kwargs c r now) r).
Proof.
  intros [->|[->| ->]] Hl; cbn; split_and!; try lia.
  - pose proof (Z.div_pos (level r) 5). lia.
  - pose proof (Z.div_pos (level r) 6). lia.
Qed.

Lemma status_run (m : message) (t_new : Q) (w : world) (r : user) (n : Z) :
  users (ensured t_new (from_user_id m) w) !! from_user_id m = Some r →
  exp_needed_for (level r) = Done n →
  handler_status m t_new w =
  (Done tt,
   logged [Answer (from_user_id m)
             (StatusText (level r) (exp r) n (sun r) (water r))]
          (ensured t_new (from_user_id m) w)) ∧
  handler_profile m t_new w =
  (Done tt,
   logged [Answer (from_user_id m)
             (ProfileText (first_name m) (level r) (exp r) n (sun r) (water r))]
          (ensured t_new (from_user_id m) w)).
Proof.
  intros E Hn. unfold handler_status, handler_profile.
  rewrite !bind_run, ensure_user_run, !get_unpack_run, E, !bind_run.
  unfold lift. by rewrite Hn.
Qed.

Lemma cmd_start_run (m : message) (t_new : Q) (w : world) :
  cmd_start m t_new w =
  (Done tt,
   logged [Answer (from_user_id m) Welcome] (ensured t_new (from_user_id m) w)).
Proof.
  unfold cmd_start, init_db, mbind, M_bind, mret, M_ret.
  by rewrite ensure_user_run.
Qed.

(** On a table that satisfies the invariants every command returns
    normally and leaves a table that satisfies them. *)
Lemma dispatch_well_formed (c : command) (m : message) (t_new now : Q)
    (w : world) :
  well_formed w →
  ∃ w', dispatch c m t_new now w = (Done tt, w') ∧ well_formed w'.
Proof.
  intros Hw.
  pose proof (well_formed_ensured t_new (from_user_id m) w Hw) as Hw0.
  pose proof (ensured_lookup t_new (from_user_id m) w) as E.
  set (r := default _ _) in E.
  pose proof (Hw0 _ _ E) as Hr. destruct Hr as (Hl & He & Hs & Hwa & Hlt).
  destruct (exp_needed_for_pos (level r)) as (n & Hn & _); [lia|].
  assert (Hgated : gated c →
            ∃ w', dispatch c m t_new now w = (Done tt, w') ∧ well_formed w').
  { intros Hc.
    destruct (Qlt_le_dec (now - last_performed c w r) (cooldown_of c)) as [H|H].
    - eexists. split; [by apply (gated_blocked_run c m t_new now w r)|].
      by apply well_formed_logged.
    - destruct (gated_allowed_run c m t_new now w r Hc E) as (ls & r' & Hrun & Hres);
        [lia|lra|].
      eexists. split; [exact Hres|]. apply well_formed_insert; [exact Hw0|].
      destruct (reward_kwargs_effect c r now Hc) as (Hl1 & He1 & Hs1 & Hw1); [lia|].
      destruct (loop_run_invariant _ ls r' Hrun) as (Hl' & He' & Hlt');
        [lia|lia|].
      destruct (loop_run_effect _ ls r' Hrun) as (_ & _ & _ & _ & Hs' & Hw' & _).
      unfold well_formed_row. split_and!; try lia. exact Hlt'. }
  destruct c; cbn [dispatch];
    try (apply Hgated; unfold gated; by eauto).
  - eexists. rewrite cmd_start_run.
    split; [done|]. by apply well_formed_logged.
  - eexists. rewrite (proj1 (status_run m t_new w r n E Hn)).
    split; [done|]. by apply well_formed_logged.
  - eexists. split; [reflexivity|]. by apply (well_formed_logged [_]).
  - eexists. split; [reflexivity|]. by apply (well_formed_logged [_]).
  - eexists. rewrite (proj2 (status_run m t_new w r n E Hn)).
    split; [done|]. by apply well_formed_logged.
  - eexists. split; [reflexivity|]. by apply (well_formed_logged [_]).
Qed.

(** Every world the bot reaches from the empty table satisfies the
    invariants, and no message makes a handler raise. *)
Lemma run_all_well_formed (l : list (command * message * Q * Q)) (w : world) :
  well_formed w →
  ∃ w', run_all l w = (Done tt, w') ∧ well_formed w'.
Proof.
  revert w. induction l as [|[[[c m] t_new] now] l IH]; intros w Hw.
  - by exists w.
  - cbn [run_all]. rewrite bind_run.
    destruct (dispatch_well_formed c m t_new now w Hw) as (w1 & -> & Hw1).
    by apply IH.
Qed.

(** ** The budget of the loop is never what stops a handler *)

Lemma within_budget_ret {A} (a : A) : within_budget (mret a).
Proof. by intros w. Qed.

Lemma within_budget_raise {A} (e : exn) : within_budget (lift (@Raise A e)).
Proof. by intros w. Qed.

Lemma within_budget_bind {A B} (c : M A) (f : A → M B) :
  within_budget c → (∀ a, within_budget (f a)) → within_budget (c ≫= f).
Proof.
  intros Hc Hf w. rewrite bind_run. specialize (Hc w).
  destruct (c w) as [[a|e|] w1]; cbn [fst] in *; [apply Hf|done..].
Qed.

Lemma within_budget_exp_needed_for (l : Z) : within_budget (lift (exp_needed_for l)).
Proof. intros w. unfold lift, exp_needed_for. by destruct (l <? 0). Qed.

Lemma within_budget_get_unpack {A} (uid : Z) (k : Z → user → M A) :
  (∀ r, within_budget (k uid r)) →
  within_budget (u ← get_user uid; '(uid', r) ← unpack u; k uid' r).
Proof.
  intros Hk w. rewrite get_unpack_run.
  destruct (users w !! uid) as [r|]; [apply Hk|done].
Qed.

Lemma within_budget_level_up_loop (m : message) (r : user) :
  within_budget (level_up_loop (level_up_loop_fuel r) m r).
Proof.
  intros w. destruct (Z.lt_ge_cases (level r) 0) as [Hneg|Hl].
  - unfold level_up_loop_fuel. cbn [level_up_loop]. rewrite bind_run.
    unfold lift, loop_test, exp_needed_for.
    assert ((level r <? MAX_LEVEL) = true) as ->
      by (apply Z.ltb_lt; unfold MAX_LEVEL; lia).
    assert ((level r <? 0) = true) as -> by (by apply Z.ltb_lt).
    done.
  - destruct (loop_run_total r) as (ls & r' & Hrun & Hlen); [by left|].
    rewrite (level_up_loop_run r ls r' Hrun); [done|].
    unfold level_up_loop_fuel. lia.
Qed.

Lemma within_budget_check_level_up (m : message) (uid : Z) :
  within_budget (check_level_up m uid).
Proof.
  unfold check_level_up. apply within_budget_get_unpack. intros r.
  apply within_budget_bind; [apply within_budget_level_up_loop|]. intros r'.
  by intros w; destruct (level_up_kwargs r').
Qed.

Lemma within_budget_dispatch (c : command) (m : message) (t_new now : Q) :
  within_budget (dispatch c m t_new now).
Proof.
  assert (Hens : ∀ t uid, within_budget (ensure_user t uid)).
  { intros t uid w. unfold ensure_user. by destruct (users w !! uid). }
  assert (Hupd : ∀ uid a kw, within_budget (update_user uid (a :: kw)))
    by (by intros uid a kw w).
  assert (Hans : ∀ text, within_budget (answer m text)) by (by intros text w).
  destruct c; cbn [dispatch];
    unfold cmd_start, handler_status, handler_water, handler_sun,
      handler_roadmap, handler_staking, handler_daily, handler_profile,
      fallback, init_db;
    repeat first
      [ apply within_budget_ret
      | apply Hans
      | apply Hens
      | apply Hupd
      | apply within_budget_exp_needed_for
      | apply within_budget_check_level_up
      | apply within_budget_get_unpack; intros ?
      | apply within_budget_bind; [|intros ?]
      | destruct (Qlt_le_dec _ _)
      | by intros ? ].
Qed.

(** ** What every command preserves, whatever its outcome *)

Section Frame.
Context (R : world → world → Prop).
Hypothesis R_refl : ∀ w, R w w.
Hypothesis R_trans : ∀ w1 w2 w3, R w1 w2 → R w2 w3 → R w1 w3.

Lemma preserves_ret {A} (a : A) : preserves R (mret a).
Proof. intros w. apply R_refl. Qed.

Lemma preserves_lift {A} (o : outcome A) : preserves R (lift o).
Proof. intros w. apply R_refl. Qed.

Lemma preserves_bind {A B} (c : M A) (f : A → M B) :
  preserves R c → (∀ a, preserves R (f a)) → preserves R (c ≫= f).
Proof.
  intros Hc Hf w. rewrite bind_run. specialize (Hc w).
  destruct (c w) as [[a|e|] w1]; cbn [snd] in *; [|done..].
  eapply R_trans; [exact Hc|apply Hf].
Qed.

Lemma preserves_get_unpack {A} (uid : Z) (k : Z → user → M A) :
  (∀ r, preserves R (k uid r)) →
  preserves R (u ← get_user uid; '(uid', r) ← unpack u; k uid' r).
Proof.
  intros Hk w. rewrite get_unpack_run.
  destruct (users w !! uid) as [r|]; [apply Hk|apply R_refl].
Qed.

Context (m : message).
Hypothesis R_ensure : ∀ t, preserves R (ensure_user t (from_user_id m)).
Hypothesis R_update : ∀ kw, preserves R (update_user (from_user_id m) kw).
Hypothesis R_answer : ∀ text, preserves R (answer m text).
Hypothesis R_setattr : ∀ now, preserves R (setattr_last_sun now).

Lemma preserves_level_up_loop (fuel : nat) (r : user) :
  preserves R (level_up_loop fuel m r).
Proof.
  revert r. induction fuel as [|fuel IH]; intros r; [apply preserves_lift|].
  cbn [level_up_loop]. apply preserves_bind; [apply preserves_lift|].
  intros [|]; [|apply preserves_ret].
  apply preserves_bind; [apply preserves_lift|]. intros r1.
  apply preserves_bind; [apply R_answer|]. intros _. apply IH.
Qed.

Lemma preserves_check_level_up :
  preserves R (check_level_up m (from_user_id m)).
Proof.
  unfold check_level_up. apply preserves_get_unpack. intros r.
  apply preserves_bind; [apply preserves_level_up_loop|]. intros r'.
  apply R_update.
Qed.

Lemma preserves_dispatch (c : command) (t_new now : Q) :
  preserves R (dispatch c m t_new now).
Proof.
  destruct c; cbn [dispatch];
    unfold cmd_start, handler_status, handler_water, handler_sun,
      handler_roadmap, handler_staking, handler_daily, handler_profile,
      fallback, init_db;
    repeat first
      [ apply preserves_ret
      | apply preserves_lift
      | apply R_answer
      | apply R_ensure
      | apply R_update
      | apply R_setattr
      | apply preserves_check_level_up
      | apply preserves_get_unpack; intros ?
      | apply preserves_bind; [|intros ?]
      | destruct (Qlt_le_dec _ _)
      | (intros ?; apply R_refl) ].
Qed.
End Frame.

Lemma apply_kwargs_created (kw : list assignment) (r : user) :
  created (apply_kwargs kw r) = created r.
Proof.
  unfold apply_kwargs. revert r. induction kw as [|a kw IH]; intros r; [done|].
  cbn [fold_left]. rewrite IH. by destruct a.
Qed.

Lemma rows_kept_refl (w : world) : rows_kept w w.
Proof. intros B r E. eauto. Qed.

Lemma rows_kept_trans (w1 w2 w3 : world) :
  rows_kept w1 w2 → rows_kept w2 w3 → rows_kept w1 w3.
Proof.
  intros H12 H23 B r E. destruct (H12 B r E) as (r2 & E2 & Hc2).
  destruct (H23 B r2 E2) as (r3 & E3 & Hc3). exists r3. split; [done|congruence].
Qed.

Lemma dispatch_rows_kept (c : command) (m : message) (t_new now : Q)
    (w : world) :
  rows_kept w (dispatch c m t_new now w).2.
Proof.
  apply (preserves_dispatch rows_kept rows_kept_refl rows_kept_trans).
  - intros t w0 B r E. unfold ensure_user.
    destruct (users w0 !! from_user_id m) eqn:E0; cbn [snd users]; [eauto|].
    rewrite lookup_insert. destruct (decide (from_user_id m = B)) as [Heq|]; [|eauto].
    rewrite Heq in E0. congruence.
  - intros kw w0 B r E. destruct kw as [|a kw]; [cbn; eauto|].
    cbn [update_user snd users]. rewrite lookup_alter.
    destruct (decide (from_user_id m = B)) as [Heq|]; [|eauto].
    rewrite <- Heq in E. rewrite E. eexists. split; [reflexivity|].
    exact (apply_kwargs_created (a :: kw) r).
  - intros text w0 B r E. cbn. eauto.
  - intros t w0 B r E. cbn. eauto.
Qed.

(** X1. No command deletes a row or changes the [created] of a row: every
    user stored before a message, the sender or anyone else, is stored
    after it with the same creation time, whether the handler returns or
    raises. *)
Theorem dispatch_keeps_rows_and_created (c : command) (m : message)
    (t_new now : Q) (w : world) (B : Z) (r : user) :
  users w !! B = Some r →
  ∃ r', users (dispatch c m t_new now w).2 !! B = Some r' ∧
        created r' = created r.
Proof. apply dispatch_rows_kept. Qed.

Lemma dispatch_keeps_rows_and_created_witness :
  ∃ r', users (dispatch Water alice 1300 1300 alice_at_4).2 !! 1 = Some r' ∧
        created r' = 1000%Q.
Proof.
  apply (dispatch_keeps_rows_and_created Water alice 1300 1300 alice_at_4 1
           (mk_user 1000 1000 0 1 4 1 1)).
  reflexivity.
Defined.




(** ** Invariants, conservation and pace of the progression *)

(** X3. The invariants of the data model hold between any two messages:
    the empty table satisfies them, and on a table that satisfies them
    (every row with [1 <= level <= MAX_LEVEL], non-negative experience, sun
    and water, and below [MAX_LEVEL] less experience than the level
    requires) every command returns without raising and leaves a table
    that satisfies them. *)
Theorem dispatch_keeps_invariants (c : command) (m : message)
    (t_new now : Q) (w : world) :
  well_formed initial_world ∧
  (well_formed w →
   ∃ w', dispatch c m t_new now w = (Done tt, w') ∧ well_formed w').
Proof.
  split; [apply well_formed_initial|apply dispatch_well_formed].
Qed.

Lemma dispatch_keeps_invariants_witness :
  ∃ w', dispatch Daily alice 5 90000 initial_world = (Done tt, w') ∧
        well_formed w'.
Proof.
  apply (proj2 (dispatch_keeps_invariants Daily alice 5 90000 initial_world)).
  apply (proj1 (dispatch_keeps_invariants Daily alice 5 90000 initial_world)).
Defined.

Lemma spent_succ (l : Z) (k : nat) :
  spent l (S k) = ceil_5_pow_1_6 l + spent (l + 1) k.
Proof.
  unfold spent. cbn [seq map foldr]. rewrite Z.add_0_r. f_equal.
  rewrite <- seq_shift, map_map. f_equal. apply map_ext. intros i. f_equal. lia.
Qed.

Lemma loop_run_conserves (r : user) (ls : list Z) (r' : user) :
  loop_run r ls r' → exp r = exp r' + spent (level r) (length ls).
Proof.
  induction 1 as [r Ht|r r1 ls r' Ht Hb _ IH]; [cbn; lia|].
  destruct (loop_test_true r Ht) as (_ & n & Hn & _).
  rewrite (loop_body_done r n Hn) in Hb. injection Hb as <-.
  cbn [exp level] in IH. cbn [length]. rewrite spent_succ.
  rewrite exp_needed_for_nonneg in Hn by (by eapply exp_needed_for_done).
  injection Hn as <-. lia.
Qed.

(** X4. [check_level_up] conserves experience: on a row of non-negative
    level it returns, the level does not go down, and the experience of
    the row before equals the experience left plus the requirements of the
    levels climbed; no experience is lost or created by a level-up. *)
Theorem check_level_up_conserves_experience (m : message) (uid : Z)
    (w : world) (r : user) :
  users w !! uid = Some r → 0 ≤ level r →
  ∃ r' w',
    check_level_up m uid w = (Done tt, w') ∧
    users w' !! uid = Some r' ∧
    level r ≤ level r' ∧
    exp r = exp r' + spent (level r) (Z.to_nat (level r' - level r)).
Proof.
  intros E Hl. destruct (loop_run_total r) as (ls & r' & Hrun & _); [by left|].
  exists r'. eexists. split; [by eapply check_level_up_run|].
  cbn [users]. split; [apply lookup_insert_eq|].
  destruct (loop_run_effect r ls r' Hrun) as (_ & _ & _ & Hlv & _).
  split; [lia|]. rewrite (loop_run_conserves r ls r' Hrun). do 2 f_equal. lia.
Qed.

Lemma check_level_up_conserves_experience_witness :
  ∃ r' w',
    check_level_up alice 1
      (mk_world {[1 := mk_user 0 0 0 1 30 0 0]} None []) = (Done tt, w') ∧
    users w' !! 1 = Some r' ∧
    1 ≤ level r' ∧
    30 = exp r' + spent 1 (Z.to_nat (level r' - 1)).
Proof.
  apply (check_level_up_conserves_experience alice 1
           (mk_world {[1 := mk_user 0 0 0 1 30 0 0]} None [])
           (mk_user 0 0 0 1 30 0 0)).
  - reflexivity.
  - cbn. lia.
Defined.

Lemma reward_fits_next_level :
  forallb (λ l, 5 + l <=? ceil_5_pow_1_6 (l + 1)) (map Z.of_nat (seq 1 19)) = true.
Proof. vm_compute. reflexivity. Qed.

Lemma reward_kwargs_gain (c : command) (r : user) (now : Q) :
  gated c → 1 ≤ level r →
  exp (apply_kwargs (reward_kwargs c r now) r) ≤ exp r + (5 + level r).
Proof. intros [->|[->| ->]] Hl; cbn; lia. Qed.

(** X5. One action gains at most one level: when a water, sun or daily
    bonus passes its test on a row that satisfies the invariants, the
    handler returns and the stored level is the old one or the old one
    plus one. *)
Theorem gated_command_gains_at_most_one_level (c : command) (m : message)
    (t_new now : Q) (w : world) (r : user) :
  gated c →
  users (ensured t_new (from_user_id m) w) !! from_user_id m = Some r →
  well_formed_row r →
  ¬ (now - last_performed c w r < cooldown_of c)%Q →
  ∃ r' w',
    dispatch c m t_new now w = (Done tt, w') ∧
    users w' !! from_user_id m = Some r' ∧
    (level r' = level r ∨ level r' = level r + 1).
Proof.
  intros Hc E (Hl & He & _ & _ & Hlt) Hge.
  destruct (gated_allowed_run c m t_new now w r Hc E) as (ls & r' & Hrun & Hres);
    [lia|exact Hge|].
  exists r'. eexists. split; [exact Hres|]. cbn [users].
  split; [apply lookup_insert_eq|].
  pose proof (reward_kwargs_level c r now) as Hlv0.
  pose proof (reward_kwargs_gain c r now Hc) as Hgain.
  set (r0 := apply_kwargs (reward_kwargs c r now) r) in *.
  inversion Hrun as [|? r1 ls1 ? Ht Hb Hrun1]; subst; [left; congruence|].
  right. destruct (loop_test_true r0 Ht) as (Hmax & n & Hn & Hle).
  rewrite (loop_body_done r0 n Hn) in Hb. injection Hb as <-.
  inversion Hrun1 as [|? r2 ls2 ? Ht1 Hb1 Hrun2]; subst; [cbn; lia|].
  exfalso. destruct (loop_test_true _ Ht1) as (Hmax1 & n1 & Hn1 & Hle1).
  cbn [level exp] in *.
  destruct Hlt as (n' & Hn' & Hlt'); [lia|].
  rewrite Hlv0 in Hn. assert (n' = n) as -> by congruence.
  rewrite Hlv0, exp_needed_for_nonneg in Hn1 by lia. injection Hn1 as <-.
  pose proof reward_fits_next_level as Hall. rewrite forallb_forall in Hall.
  assert (Hfit : 5 + level r ≤ ceil_5_pow_1_6 (level r + 1)).
  { apply Z.leb_le. apply (Hall (level r)). apply in_map_iff.
    exists (Z.to_nat (level r)). split; [lia|]. apply in_seq.
    unfold MAX_LEVEL in *. lia. }
  lia.
Qed.

Lemma gated_command_gains_at_most_one_level_witness :
  ∃ r' w',
    dispatch Water alice 1300 1300 alice_at_4 = (Done tt, w') ∧
    users w' !! 1 = Some r' ∧
    (level r' = 1 ∨ level r' = 1 + 1).
Proof.
  apply (gated_command_gains_at_most_one_level Water alice 1300 1300 alice_at_4
           (mk_user 1000 1000 0 1 4 1 1)).
  - by left.
  - reflexivity.
  - unfold well_formed_row, MAX_LEVEL. cbn. split_and!; try lia.
    intros _. exists 5. split; [reflexivity|lia].
  - vm_compute. intros H. discriminate H.
Defined.

(** ** How the cooldowns compose *)

Lemma reward_kwargs_last_performed (c : command) (m : message) (w : world)
    (r : user) (now : Q) (ls : list Z) (r' : user) (db : gmap Z user)
    (tr : list event) :
  gated c →
  loop_run (apply_kwargs (reward_kwargs c r now) r) ls r' →
  last_performed c (mk_world db (last_sun_after c w now) tr) r' = now.
Proof.
  intros Hc Hrun.
  destruct (loop_run_effect _ ls r' Hrun) as (_ & Hw & Hd & _).
  destruct Hc as [->|[->| ->]]; cbn [last_performed last_sun_after last_sun];
    [rewrite Hw|done|rewrite Hd]; reflexivity.
Qed.

(** X6. The cooldown separates two uses: once a water, sun or daily bonus
    has passed its test at time [now] (level at least 1), the handler
    returns, the timestamp its test reads is [now], and the same command of
    the same user at any time [now2] is blocked iff [now2 - now] is less
    than the duration. *)
Theorem cooldown_starts_at_success (c : command) (m : message)
    (t_new now : Q) (w : world) (r : user) :
  gated c →
  users (ensured t_new (from_user_id m) w) !! from_user_id m = Some r →
  1 ≤ level r →
  ¬ (now - last_performed c w r < cooldown_of c)%Q →
  ∃ r' w',
    dispatch c m t_new now w = (Done tt, w') ∧
    users w' !! from_user_id m = Some r' ∧
    last_performed c w' r' = now ∧
    ∀ t_new2 now2,
      blocked c m t_new2 now2 w' ↔ (now2 - now < cooldown_of c)%Q.
Proof.
  intros Hc E Hl Hge.
  destruct (gated_allowed_run c m t_new now w r Hc E) as (ls & r' & Hrun & Hres);
    [lia|exact Hge|].
  exists r'. eexists. split; [exact Hres|]. cbn [users].
  split; [apply lookup_insert_eq|].
  pose proof (reward_kwargs_last_performed c m w r now ls r'
                (<[from_user_id m := r']>
                   (users (ensured t_new (from_user_id m) w)))
                (trace (ensured t_new (from_user_id m) w) ++
                 [SqlUpdate (from_user_id m) (reward_kwargs c r now);
                  Answer (from_user_id m) (done_reply c r)] ++
                 level_ups m ls ++
                 [SqlUpdate (from_user_id m) (level_up_kwargs r')])
                Hc Hrun) as HT.
  split; [exact HT|]. intros t_new2 now2.
  set (w' := mk_world _ _ _) in *.
  assert (E' : users (ensured t_new2 (from_user_id m) w') !! from_user_id m
               = Some r').
  { rewrite ensured_lookup. unfold w'. cbn [users].
    by rewrite lookup_insert_eq. }
  assert (Hl' : 0 ≤ level r').
  { destruct (loop_run_effect _ ls r' Hrun) as (_ & _ & _ & Hlv & _).
    rewrite reward_kwargs_level in Hlv. lia. }
  split.
  - intros Hb.
    destruct (Qlt_le_dec (now2 - now) (cooldown_of c)) as [Hlt|Hge2]; [exact Hlt|].
    exfalso. apply (allowed_not_blocked c m t_new2 now2 w' r'); try done.
    rewrite HT. lra.
  - intros Hlt. eexists.
    apply (gated_blocked_run c m t_new2 now2 w' r'); try done.
    by rewrite HT.
Qed.

Lemma cooldown_starts_at_success_witness :
  ∃ r' w',
    dispatch Water alice 1300 1300 alice_at_4 = (Done tt, w') ∧
    users w' !! 1 = Some r' ∧
    last_performed Water w' r' = 1300%Q ∧
    ∀ t_new2 now2,
      blocked Water alice t_new2 now2 w' ↔ (now2 - 1300 < cooldown_of Water)%Q.
Proof.
  apply (cooldown_starts_at_success Water alice 1300 1300 alice_at_4
           (mk_user 1000 1000 0 1 4 1 1)).
  - by left.
  - reflexivity.
  - cbn. lia.
  - vm_compute. intros H. discriminate H.
Defined.

(** X7. The cooldown of sun is shared by all users: once any user's sun
    has passed its test at time [now] (level at least 1), the sun of every
    user, the same or another, with or without a row, at a time [now2] with
    [now2 - now < 600] only gets the wait message. *)
Theorem sun_success_blocks_every_user (m m2 : message) (t_new now : Q)
    (t_new2 now2 : Q) (w : world) (r : user) :
  users (ensured t_new (from_user_id m) w) !! from_user_id m = Some r →
  1 ≤ level r →
  ¬ (now - default 0%Q (last_sun w) < SUN_COOLDOWN)%Q →
  (now2 - now < SUN_COOLDOWN)%Q →
  ∃ w',
    handler_sun m t_new now w = (Done tt, w') ∧
    last_sun w' = Some now ∧
    handler_sun m2 t_new2 now2 w' =
    (Done tt,
     logged [Answer (from_user_id m2)
               (wait_reply Sun (Qfloor (SUN_COOLDOWN - (now2 - now))))]
            (ensured t_new2 (from_user_id m2) w')).
Proof.
  intros E Hl Hge Hlt.
  destruct (gated_allowed_run Sun m t_new now w r) as (ls & r' & Hrun & Hres);
    [by right; left|exact E|lia|exact Hge|].
  cbn [dispatch] in Hres. eexists. split; [exact Hres|].
  split; [reflexivity|].
  set (w' := mk_world _ _ _).
  pose proof (ensured_lookup t_new2 (from_user_id m2) w') as E2.
  apply (gated_blocked_run Sun m2 t_new2 now2 w' _ (or_intror (or_introl eq_refl)) E2).
  exact Hlt.
Qed.

Lemma sun_success_blocks_every_user_witness :
  ∃ w',
    handler_sun alice 1000 1000 initial_world = (Done tt, w') ∧
    last_sun w' = Some 1000%Q ∧
    handler_sun bob 1001 1001 w' =
    (Done tt,
     logged [Answer 2 (wait_reply Sun (Qfloor (SUN_COOLDOWN - (1001 - 1000))))]
            (ensured 1001 2 w')).
Proof.
  apply (sun_success_blocks_every_user alice bob 1000 1000 1001 1001
           initial_world (mk_user 1000 0 0 1 0 0 0)).
  - reflexivity.
  - cbn. lia.
  - vm_compute. intros H. discriminate H.
  - vm_compute. reflexivity.
Defined.

(** X8. The three cooldowns are independent for one user: a water, sun or
    daily bonus, blocked or not, leaves the timestamps that the tests of
    the other two commands read as they were. *)
Theorem cooldowns_are_independent (c1 c2 : command) (m : message)
    (t_new now : Q) (w : world) (r : user) :
  gated c1 → gated c2 → c1 ≠ c2 →
  users (ensured t_new (from_user_id m) w) !! from_user_id m = Some r →
  1 ≤ level r →
  ∃ r' w',
    dispatch c1 m t_new now w = (Done tt, w') ∧
    users w' !! from_user_id m = Some r' ∧
    last_performed c2 w' r' = last_performed c2 w r.
Proof.
  intros H1 H2 Hne E Hl.
  destruct (Qlt_le_dec (now - last_performed c1 w r) (cooldown_of c1)) as [Hlt|Hge].
  - exists r. eexists.
    split; [by apply (gated_blocked_run c1 m t_new now w r)|].
    split; [exact E|].
    destruct c2; try reflexivity. cbn [last_performed logged last_sun].
    by rewrite ensured_last_sun.
  - destruct (gated_allowed_run c1 m t_new now w r H1 E) as (ls & r' & Hrun & Hres);
      [lia|lra|].
    exists r'. eexists. split; [exact Hres|]. cbn [users].
    split; [apply lookup_insert_eq|].
    destruct (loop_run_effect _ ls r' Hrun) as (_ & Hw & Hd & _).
    destruct H1 as [->|[->| ->]], H2 as [->|[->| ->]]; try done;
      cbn [last_performed last_sun_after last_sun];
      rewrite ?Hw, ?Hd; reflexivity.
Qed.

Lemma cooldowns_are_independent_witness :
  ∃ r' w',
    dispatch Water alice 1300 1300 alice_at_4 = (Done tt, w') ∧
    users w' !! 1 = Some r' ∧
    last_performed Sun w' r' = 1000%Q.
Proof.
  apply (cooldowns_are_independent Water Sun alice 1300 1300 alice_at_4
           (mk_user 1000 1000 0 1 4 1 1)).
  - by left.
  - right. by left.
  - discriminate.
  - reflexivity.
  - cbn. lia.
Defined.

(** ** What a command does to the row of its sender *)

Lemma static_run (c : command) (m : message) (t_new now : Q) (w : world) :
  c = Roadmap ∨ c = Staking ∨ c = Unmatched →
  ∃ text,
    dispatch c m t_new now w = (Done tt, logged [Answer (from_user_id m) text] w).
Proof. intros [->|[->| ->]]; by eexists. Qed.

(** The handlers that only show the row: whatever the level, the table is
    the one [ensure_user] leaves. *)
Lemma shown_run (c : command) (m : message) (t_new now : Q) (w : world) :
  c = Start ∨ c = Status ∨ c = Profile →
  ∃ o text,
    dispatch c m t_new now w =
    (o, logged text (ensured t_new (from_user_id m) w)) ∧
    Forall (λ e, is_update e = false) text.
Proof.
  pose proof (ensured_lookup t_new (from_user_id m) w) as E.
  set (r := default _ _) in E.
  intros [->|[->| ->]]; cbn [dispatch].
  - eexists _, _. split; [apply cmd_start_run|]. by repeat constructor.
  - unfold handler_status.
    rewrite bind_run, ensure_user_run, get_unpack_run, E, bind_run.
    unfold lift. destruct (exp_needed_for (level r)) as [n|e|].
    + eexists _, _. split; [by rewrite answer_run|]. by repeat constructor.
    + exists (Raise e), []. by rewrite logged_nil.
    + exists NoFuel, []. by rewrite logged_nil.
  - unfold handler_profile.
    rewrite bind_run, ensure_user_run, get_unpack_run, E, bind_run.
    unfold lift. destruct (exp_needed_for (level r)) as [n|e|].
    + eexists _, _. split; [by rewrite answer_run|]. by repeat constructor.
    + exists (Raise e), []. by rewrite logged_nil.
    + exists NoFuel, []. by rewrite logged_nil.
Qed.

Lemma ensured_idempotent (t_new : Q) (uid : Z) (w : world) :
  ensured t_new uid (ensured t_new uid w) = ensured t_new uid w.
Proof. eapply ensured_present. apply ensured_lookup. Qed.

(** A handler that begins with [ensure_user] does on a world what it does
    on the world [ensure_user] leaves. *)
Lemma dispatch_after_ensure (c : command) (m : message) (t_new now : Q)
    (w : world) :
  c ≠ Roadmap → c ≠ Staking → c ≠ Unmatched →
  dispatch c m t_new now w =
  dispatch c m t_new now (ensured t_new (from_user_id m) w).
Proof.
  intros H1 H2 H3. destruct c; try done; cbn [dispatch];
    unfold cmd_start, handler_status, handler_water, handler_sun,
      handler_daily, handler_profile, init_db;
    rewrite ?(bind_run (mret tt)); cbn [mret M_ret];
    rewrite !(bind_run (ensure_user _ _)), !ensure_user_run;
    by rewrite ensured_idempotent.
Qed.

(** X9. Which commands touch the table.  Roadmap, staking and unmatched
    text only send one reply: the table and the sun attribute are left as
    they are, and a sender without a row still has none.  Start, status
    and profile, whatever their outcome, leave exactly the table of
    [ensure_user] and commit no update.  After every command that begins
    with [ensure_user] the sender has a row, even when the handler
    raises. *)
Theorem commands_and_the_table (c : command) (m : message) (t_new now : Q)
    (w : world) :
  (c = Roadmap ∨ c = Staking ∨ c = Unmatched →
   ∃ text,
     dispatch c m t_new now w =
     (Done tt, logged [Answer (from_user_id m) text] w)) ∧
  (c = Start ∨ c = Status ∨ c = Profile →
   users (dispatch c m t_new now w).2 =
   users (ensured t_new (from_user_id m) w) ∧
   last_sun (dispatch c m t_new now w).2 = last_sun w ∧
   ∃ es, trace (dispatch c m t_new now w).2 =
         trace (ensured t_new (from_user_id m) w) ++ es ∧
         updates es = []) ∧
  (c ≠ Roadmap → c ≠ Staking → c ≠ Unmatched →
   is_Some (users (dispatch c m t_new now w).2 !! from_user_id m)).
Proof.
  split_and!.
  - apply static_run.
  - intros Hc. destruct (shown_run c m t_new now w Hc) as (o & es & -> & Hes).
    cbn [snd logged users last_sun trace]. split_and!; [done|apply ensured_last_sun|].
    exists es. split; [done|].
    unfold updates. induction Hes as [|e es He _ IH]; [done|].
    rewrite filter_cons. destruct (decide (is_update e)) as [Hd|_]; [|exact IH].
    rewrite He in Hd. done.
  - intros H1 H2 H3. rewrite (dispatch_after_ensure c m t_new now w H1 H2 H3).
    pose proof (ensured_lookup t_new (from_user_id m) w) as E.
    destruct (dispatch_rows_kept c m t_new now _ _ _ E) as (r' & -> & _).
    by eexists.
Qed.

Lemma commands_and_the_table_witness :
  dispatch Roadmap bob 5 5 alice_at_4 =
  (Done tt, logged [Answer 2 RoadmapText] alice_at_4) ∧
  is_Some (users (dispatch Status bob 5 5 alice_at_4).2 !! 2).
Proof.
  split.
  - destruct (proj1 (commands_and_the_table Roadmap bob 5 5 alice_at_4))
      as (text & H); [by left|].
    rewrite H. f_equal. f_equal. vm_compute in H. by injection H as <-.
  - apply (proj2 (proj2 (commands_and_the_table Status bob 5 5 alice_at_4)));
      discriminate.
Defined.

(** ** Counters and messages *)

(** X10. Level, sun and water never go down: for a sender whose row has a
    non-negative level, every command returns and leaves a row whose level,
    sun and water are at least what they were (experience can go down, by
    a level-up). *)
Theorem counters_never_decrease (c : command) (m : message) (t_new now : Q)
    (w : world) (r : user) :
  users w !! from_user_id m = Some r → 0 ≤ level r →
  ∃ r' w',
    dispatch c m t_new now w = (Done tt, w') ∧
    users w' !! from_user_id m = Some r' ∧
    level r ≤ level r' ∧ sun r ≤ sun r' ∧ water r ≤ water r'.
Proof.
  intros E0 Hl.
  pose proof (ensured_present t_new _ _ _ E0) as Hw0.
  assert (E : users (ensured t_new (from_user_id m) w) !! from_user_id m = Some r)
    by (by rewrite Hw0).
  assert (Hgated : gated c →
    ∃ r' w', dispatch c m t_new now w = (Done tt, w') ∧
             users w' !! from_user_id m = Some r' ∧
             level r ≤ level r' ∧ sun r ≤ sun r' ∧ water r ≤ water r').
  { intros Hc.
    destruct (Qlt_le_dec (now - last_performed c w r) (cooldown_of c)) as [H|H].
    - exists r. eexists. split; [by apply (gated_blocked_run c m t_new now w r)|].
      split; [exact E|lia].
    - destruct (gated_allowed_run c m t_new now w r Hc E) as (ls & r' & Hrun & Hres);
        [lia|lra|].
      exists r'. eexists. split; [exact Hres|]. cbn [users].
      split; [apply lookup_insert_eq|].
      destruct (reward_kwargs_effect c r now Hc Hl) as (Hl1 & _ & Hs1 & Hw1).
      destruct (loop_run_effect _ ls r' Hrun) as (_ & _ & _ & Hlv & Hs & Hwa & _).
      lia. }
  destruct (exp_needed_for_is_ceil (level r) Hl) as (n & Hn & _).
  destruct c; try (apply Hgated; unfold gated; by eauto); exists r; eexists;
    cbn [dispatch].
  - rewrite cmd_start_run. split; [done|]. split; [exact E|lia].
  - rewrite (proj1 (status_run m t_new w r n E Hn)). split; [done|].
    split; [exact E|lia].
  - split; [reflexivity|]. split; [exact E0|lia].
  - split; [reflexivity|]. split; [exact E0|lia].
  - rewrite (proj2 (status_run m t_new w r n E Hn)). split; [done|].
    split; [exact E|lia].
  - split; [reflexivity|]. split; [exact E0|lia].
Qed.

Lemma counters_never_decrease_witness :
  ∃ r' w',
    dispatch Daily alice 5 90000 alice_at_4 = (Done tt, w') ∧
    users w' !! 1 = Some r' ∧
    1 ≤ level r' ∧ 1 ≤ sun r' ∧ 1 ≤ water r'.
Proof.
  apply (counters_never_decrease Daily alice 5 90000 alice_at_4
           (mk_user 1000 1000 0 1 4 1 1)).
  - reflexivity.
  - cbn. lia.
Defined.

Lemma remaining_bounds (D now T : Q) :
  (now - T < D)%Q → (T <= now)%Q →
  0 ≤ Qfloor (D - (now - T)) ≤ Qfloor D.
Proof.
  intros Hlt Hle. split.
  - change 0 with (Qfloor 0). apply Qfloor_resp_le. lra.
  - apply Qfloor_resp_le. lra.
Qed.

(** X12. What a wait message can show.  When a water, sun or daily bonus
    is blocked and the timestamp its test reads is not in the future, the
    reply shows whole minutes from 0 to 5 (water) or 0 to 10 (sun) with
    seconds from 0 to 59, or whole hours from 0 to 24 with minutes from 0
    to 59 (daily bonus); the largest minute or hour count comes with a
    zero in the other field. *)
Theorem wait_message_bounds (c : command) (m : message) (t_new now : Q)
    (w : world) (r : user) :
  gated c →
  users (ensured t_new (from_user_id m) w) !! from_user_id m = Some r →
  (now - last_performed c w r < cooldown_of c)%Q →
  (last_performed c w r <= now)%Q →
  ∃ a b,
    dispatch c m t_new now w =
    (Done tt,
     logged [Answer (from_user_id m)
               match c with
               | Water => WaterWait a b
               | Sun => SunWait a b
               | _ => DailyWait a b
               end]
            (ensured t_new (from_user_id m) w)) ∧
    0 ≤ b ≤ 59 ∧
    0 ≤ a ≤ match c with Water => 5 | Sun => 10 | _ => 24 end ∧
    (a = match c with Water => 5 | Sun => 10 | _ => 24 end → b = 0).
Proof.
  intros Hc E Hlt Hle.
  pose proof (gated_blocked_run c m t_new now w r Hc E Hlt) as Hrun.
  pose proof (remaining_bounds (cooldown_of c) now (last_performed c w r) Hlt Hle)
    as Hb.
  set (remain := Qfloor _) in *.
  destruct Hc as [->|[->| ->]]; cbn [wait_reply cooldown_of] in *;
    eexists _, _; (split; [exact Hrun|]);
    [change (Qfloor WATER_COOLDOWN) with 300 in Hb
    |change (Qfloor SUN_COOLDOWN) with 600 in Hb
    |change (Qfloor DAILY_COOLDOWN) with 86400 in Hb];
    Z.div_mod_to_equations; lia.
Qed.

Lemma wait_message_bounds_witness :
  ∃ a b,
    dispatch Water alice 1000 1100 alice_at_4 =
    (Done tt, logged [Answer 1 (WaterWait a b)] (ensured 1000 1 alice_at_4)) ∧
    0 ≤ b ≤ 59 ∧ 0 ≤ a ≤ 5 ∧ (a = 5 → b = 0).
Proof.
  apply (wait_message_bounds Water alice 1000 1100 alice_at_4
           (mk_user 1000 1000 0 1 4 1 1)).
  - by left.
  - reflexivity.
  - vm_compute. reflexivity.
  - vm_compute. intros H. discriminate H.
Defined.

(** ** The drawing and the keyboard *)

Lemma ASCII_TREE_outside (k : Z) : k < 1 ∨ 5 < k → ASCII_TREE !! k = None.
Proof.
  intros Hk. unfold ASCII_TREE. apply not_elem_of_list_to_map_1. cbn.
  intros H. repeat (apply elem_of_cons in H as [H|H]; [lia|]).
  by apply elem_of_nil in H.
Qed.

(** X14. [ascii_for] has five drawings only: the one of a level is the one
    of that level brought into [1, 5], so every level from 5 to [MAX_LEVEL]
    shows the same tree and a level below 1 shows the seedling of level 1.
    From level 3 on the key looked up is always in [ASCII_TREE] (the
    fallback of that lookup is never used), and the drawing, written as
    four rows, has three line feeds; below level 3 it has none. *)
Theorem ascii_for_five_drawings (level : Z) :
  ascii_for level = ascii_for (Z.max 1 (Z.min level 5)) ∧
  (3 ≤ level → is_Some (ASCII_TREE !! Z.min level 5)) ∧
  line_feeds (ascii_for level) = if level <? 3 then 0%nat else 3%nat.
Proof.
  destruct (Z.lt_ge_cases level 1) as [Hlow|Hlow].
  - replace (Z.max 1 (Z.min level 5)) with 1 by lia.
    assert ((level <? 3) = true) as Hlt by (apply Z.ltb_lt; lia).
    unfold ascii_for. rewrite Hlt. unfold dict_get.
    rewrite ASCII_TREE_outside by lia. split_and!; [reflexivity|lia|reflexivity].
  - destruct (Z.lt_ge_cases level 5) as [Hhigh|Hhigh].
    + replace (Z.max 1 (Z.min level 5)) with level by lia.
      assert (level = 1 ∨ level = 2 ∨ level = 3 ∨ level = 4) as Hcases by lia.
      destruct Hcases as [->|[->|[->| ->]]];
        (split_and!; [reflexivity| |reflexivity]);
        first [lia|intros _; by eexists].
    + replace (Z.max 1 (Z.min level 5)) with 5 by lia.
      assert ((level <? 3) = false) as Hlt by (apply Z.ltb_ge; lia).
      unfold ascii_for. rewrite Hlt.
      replace (Z.min level 5) with 5 by lia.
      split_and!; [reflexivity|intros _; by eexists|reflexivity].
Qed.

(** X15. The keyboard and the filters agree.  Provided the command filter
    of start rejects the seven button labels, the buttons of
    [main_keyboard], pressed in order, run status, water, sun, roadmap,
    staking, daily bonus and profile: each button has its own handler and
    none falls to the fallback.  Conversely a text that is not a start
    command reaches a handler other than the fallback only if it is
    exactly one of the button labels. *)
Theorem keyboard_buttons_reach_their_handlers (is_start : option string → bool) :
  (∀ b, In b (concat main_keyboard) → is_start (Some b) = false) →
  map (λ b, route is_start (Some b)) (concat main_keyboard) =
  [Status; Water; Sun; Roadmap; Staking; Daily; Profile] ∧
  (∀ text, is_start text = false →
           route is_start text ≠ Unmatched →
           ∃ b, In b (concat main_keyboard) ∧ text = Some b).
Proof.
  intros Hs. split.
  - cbn [main_keyboard concat app map]. unfold route.
    rewrite !Hs by (cbn; tauto). vm_compute. reflexivity.
  - intros text Hst Hr. unfold route in Hr. rewrite Hst in Hr.
    destruct text as [t|]; [|done]. cbn [text_is] in Hr.
    repeat match type of Hr with
    | context [String.eqb t ?s] =>
        destruct (String.eqb_spec t s) as [->|_];
          [exists s; split; [cbn; tauto|reflexivity]|]
    end.
    done.
Qed.

Lemma keyboard_buttons_reach_their_handlers_witness :
  map (λ b, route starts_with_slash_start (Some b)) (concat main_keyboard) =
  [Status; Water; Sun; Roadmap; Staking; Daily; Profile].
Proof.
  refine (proj1 (keyboard_buttons_reach_their_handlers starts_with_slash_start _)).
  intros b Hin. cbn in Hin.
  repeat (destruct Hin as [<-|Hin]; [by vm_compute|]). done.
Defined.

(** ** More on [check_level_up] and on the rewards of water and sun *)

(** X16. [check_level_up] at its edges.  On an id without a row it raises
    [TypeError] (the unpacking of [None]) and commits nothing.  On a row of
    non-negative level it returns, and running it again at once changes no
    row and announces nothing: its only trace is one more update, which
    writes the values the row already has. *)
Theorem check_level_up_edges (m : message) (uid : Z) (w : world) :
  (users w !! uid = None → check_level_up m uid w = (Raise TypeError, w)) ∧
  (∀ r, users w !! uid = Some r → 0 ≤ level r →
        ∃ r' w',
          check_level_up m uid w = (Done tt, w') ∧
          users w' !! uid = Some r' ∧
          check_level_up m uid w' =
          (Done tt,
           mk_world (users w') (last_sun w')
                    (trace w' ++ [SqlUpdate uid (level_up_kwargs r')]))).
Proof.
  split.
  - intros E. unfold check_level_up. by rewrite get_unpack_run, E.
  - intros r E Hl.
    destruct (loop_run_total r) as (ls & r' & Hrun & _); [by left|].
    exists r'. eexists. split; [by eapply check_level_up_run|].
    cbn [users last_sun trace]. split; [apply lookup_insert_eq|].
    destruct (loop_run_effect r ls r' Hrun) as (_ & _ & _ & _ & _ & _ & _ & Hend).
    rewrite (check_level_up_run m uid _ r' r' []);
      [|apply lookup_insert_eq|by apply loop_run_exit].
    cbn [users last_sun trace level_ups map app]. by rewrite insert_insert_eq.
Qed.

Lemma check_level_up_edges_witness :
  check_level_up alice 9 alice_at_4 = (Raise TypeError, alice_at_4) ∧
  ∃ r' w',
    check_level_up alice 1 alice_at_4 = (Done tt, w') ∧
    users w' !! 1 = Some r' ∧
    check_level_up alice 1 w' =
    (Done tt,
     mk_world (users w') (last_sun w')
              (trace w' ++ [SqlUpdate 1 (level_up_kwargs r')])).
Proof.
  split.
  - apply (proj1 (check_level_up_edges alice 9 alice_at_4)). reflexivity.
  - apply (proj2 (check_level_up_edges alice 1 alice_at_4)
             (mk_user 1000 1000 0 1 4 1 1)).
    + reflexivity.
    + cbn. lia.
Defined.

(** X17. The rewards of water and sun.  A water that passes its test on a
    row of level at least 1 writes [water + 1], [exp + 2] and
    [last_water = now] in one update and leaves [last_daily] alone; a sun
    that passes its test writes [sun + 1] and [exp + 2] and no timestamp.
    With [k] the number of levels [check_level_up] then climbs, the row
    left has level, sun and water raised by [k] on top of that, and its
    experience plus the requirements of the [k] levels climbed is the old
    experience plus 2. *)
Theorem water_and_sun_rewards (c : command) (m : message) (t_new now : Q)
    (w : world) (r : user) :
  c = Water ∨ c = Sun →
  users (ensured t_new (from_user_id m) w) !! from_user_id m = Some r →
  1 ≤ level r →
  ¬ (now - last_performed c w r < cooldown_of c)%Q →
  ∃ (k : nat) r' w' es,
    dispatch c m t_new now w = (Done tt, w') ∧
    trace w' =
    trace (ensured t_new (from_user_id m) w) ++
    SqlUpdate (from_user_id m)
      match c with
      | Water => [set_water (water r + 1); set_exp (exp r + 2); set_last_water now]
      | _ => [set_sun (sun r + 1); set_exp (exp r + 2)]
      end :: es ∧
    users w' !! from_user_id m = Some r' ∧
    level r' = level r + Z.of_nat k ∧
    exp r' + spent (level r) k = exp r + 2 ∧
    water r' = water r + match c with Water => 1 | _ => 0 end + Z.of_nat k ∧
    sun r' = sun r + match c with Water => 0 | _ => 1 end + Z.of_nat k ∧
    last_water r' = match c with Water => now | _ => last_water r end ∧
    last_daily r' = last_daily r ∧
    created r' = created r.
Proof.
  intros Hc E Hl Hge.
  assert (Hg : gated c) by (unfold gated; tauto).
  destruct (gated_allowed_run c m t_new now w r Hg E) as (ls & r' & Hrun & Hres);
    [lia|exact Hge|].
  exists (length ls), r'. eexists _, _. split; [exact Hres|].
  cbn [trace users].
  pose proof (loop_run_conserves _ ls r' Hrun) as Hexp.
  destruct (loop_run_effect _ ls r' Hrun)
    as (Hcr & Hlw & Hld & Hlv & Hs & Hwa & _).
  destruct Hc as [-> | ->]; cbn in Hexp, Hcr, Hlw, Hld, Hlv, Hs, Hwa;
    (split; [reflexivity|]); (split; [apply lookup_insert_eq|]);
    cbn; split_and!; try done; lia.
Qed.

Lemma water_and_sun_rewards_witness :
  ∃ (k : nat) r' w' es,
    dispatch Water alice 1300 1300 alice_at_4 = (Done tt, w') ∧
    trace w' =
    trace (ensured 1300 1 alice_at_4) ++
    SqlUpdate 1 [set_water 2; set_exp 6; set_last_water 1300] :: es ∧
    users w' !! 1 = Some r' ∧
    level r' = 1 + Z.of_nat k ∧
    exp r' + spent 1 k = 4 + 2.
Proof.
  destruct (water_and_sun_rewards Water alice 1300 1300 alice_at_4
              (mk_user 1000 1000 0 1 4 1 1))
    as (k & r' & w' & es & H1 & H2 & H3 & H4 & H5 & _).
  - by left.
  - reflexivity.
  - cbn. lia.
  - vm_compute. intros H. discriminate H.
  - exists k, r', w', es. split_and!; done.
Defined.
